(** * dnp3-python: translation and staging layer

    A shallow embedding of the pure and stateful parts of
    [dnp3_python/master_utils.py], [dnp3_python/dnp3station/station_utils.py]
    and [dnp3_python/dnp3station/outstation_new.py], and the properties of
    the command translator, the measurement staging cache, the value
    visitor dispatch and the outstation registry that the specification
    states.

    Conventions of the embedding:
    - Python [int] is [Z]; Python [float] is a binary64 primitive float;
      [datetime.datetime] is the number of microseconds since the epoch
      (the resolution of [datetime]), a [Z].
    - A Python [dict] is a [gmap].  Dict objects that are stored in one
      place and referenced from another live in an object store indexed
      by identity, so that in-place [update] is visible through every
      reference.
    - A Python function that may raise returns a [result]; a method that
      also mutates its object returns the object with it, whether it
      returned or raised.
    - An attribute of an opendnp3 object is a typed field of the
      bindings: it holds a value of its C++ type, and assigning to it
      converts the Python value or raises. *)

From Stdlib Require Import ZArith Floats.PrimFloat Floats.SpecFloat Floats.FloatOps.
From stdpp Require Import gmap strings list fin_maps pretty.

Set Warnings "-inexact-float".
Open Scope Z_scope.

(** ** Python values *)

(** The run-time types [type(x)] can return for the scalars that reach
    the translator. *)
Inductive PyType := NoneType | bool_t | int_t | float_t | str_t.

#[global] Instance PyType_eq_dec : EqDecision PyType.
Proof. solve_decision. Defined.

(** Scalars an application can hand to the translator ([DbPointVal] is
    [Union[float, int, bool]]; nothing stops a caller from passing [None]
    or a string). *)
Inductive PyVal :=
  | PyNone
  | PyBool (b : bool)
  | PyInt (z : Z)
  | PyFloat (f : float)
  | PyStr (s : string).

(** [type(v)]: the exact class, so [type(True)] is [bool], not [int]. *)
Definition type (v : PyVal) : PyType :=
  match v with
  | PyNone => NoneType
  | PyBool _ => bool_t
  | PyInt _ => int_t
  | PyFloat _ => float_t
  | PyStr _ => str_t
  end.

(** [datetime.datetime], in microseconds. *)
Definition datetime := Z.

(** [(a - b).total_seconds() >= n] for an [int] [n] of at most [10**9]
    in absolute value.  [total_seconds] is the microsecond count divided
    by [10**6], correctly rounded to a double, and Python compares a
    float with an int exactly.  When the count is at least [n * 10**6]
    the quotient is at least [n], and so is its rounding, [n] being a
    double.  When the count is less, the quotient is at most
    [n - 10**-6]; the doubles next below such an [n] are [2**-23] apart
    or closer, which is less than [10**-6], so the rounding stays below
    [n].  Within this range the test is therefore the test on the
    microsecond counts.  Beyond it, for thresholds from about [2**34]
    seconds, the rounded quotient can reach [n] while the count is below,
    and this definition no longer gives the result of the source; the
    threshold the handler itself passes is 10. *)
Definition total_seconds_ge (a b : datetime) (n : Z) : bool :=
  n * 1000000 <=? a - b.

(** [dict(pairs)]: later pairs overwrite earlier ones. *)
Definition dict {K V} `{Countable K} (pairs : list (K * V)) : gmap K V :=
  fold_left (fun d kv => <[kv.1 := kv.2]> d) pairs ∅.

(** [d.update(other)] as a value: every key of [other] takes the value
    it has in [other], the other keys of [d] keep theirs. *)
Definition dict_update {K V} `{Countable K} (d other : gmap K V) : gmap K V :=
  other ∪ d.

(** ** opendnp3 objects

    The classes come from the [pydnp3] bindings.  An object is modelled
    by its class and the one attribute the repository reads or writes:
    [value] for the analog outputs and the statuses, [rawCode] for the
    relay block.  The attributes are typed fields: the [value] of an
    [AnalogOutputInt32] or [AnalogOutputInt16] is an integer of that
    width, read back as a Python [int]; the [value] of an
    [AnalogOutputFloat32] is a single-precision number and that of an
    [AnalogOutputDouble64], an [AnalogOutputStatus] or an [Analog] a
    double, both read back as a Python [float]. *)
Module opendnp3.

Inductive obj :=
  | AnalogOutputInt32 (value : Z)
  | AnalogOutputInt16 (value : Z)
  | AnalogOutputFloat32 (value : float)
  | AnalogOutputDouble64 (value : float)
  | ControlRelayOutputBlock (rawCode : Z)
  | AnalogOutputStatus (value : float)
  | BinaryOutputStatus (value : bool)
  | Analog (value : float)
  | Binary (value : bool).

Inductive CommandStatus := SUCCESS.

(** [opendnp3.GroupVariation]: an enumeration whose member
    [GroupXVarY] stands for group [X], variation [Y]. *)
Record GroupVariation := GroupVar { group : N; variation : N }.

(** The eight collection classes [Process] can be handed, and anything
    else. *)
Inductive ICollectionIndexed :=
  | ICollectionIndexedBinary
  | ICollectionIndexedDoubleBitBinary
  | ICollectionIndexedCounter
  | ICollectionIndexedFrozenCounter
  | ICollectionIndexedAnalog
  | ICollectionIndexedBinaryOutputStatus
  | ICollectionIndexedAnalogOutputStatus
  | ICollectionIndexedTimeAndInterval
  | ICollectionOther.

End opendnp3.
Export opendnp3.

#[global] Instance obj_inhabited : Inhabited obj := populate (Binary false).

#[global] Instance GroupVariation_eq_dec : EqDecision GroupVariation.
Proof. solve_decision. Defined.

#[global] Instance GroupVariation_countable : Countable GroupVariation.
Proof.
  refine (inj_countable' (fun gv => (group gv, variation gv))
                         (fun p => GroupVar p.1 p.2) _).
  by intros [].
Defined.

#[global] Instance ICollectionIndexed_eq_dec : EqDecision ICollectionIndexed.
Proof. solve_decision. Defined.

Definition Group30Var1 : GroupVariation := GroupVar 30 1.
Definition Group30Var2 : GroupVariation := GroupVar 30 2.
Definition Group30Var3 : GroupVariation := GroupVar 30 3.
Definition Group30Var4 : GroupVariation := GroupVar 30 4.
Definition Group32Var1 : GroupVariation := GroupVar 32 1.
Definition Group32Var2 : GroupVariation := GroupVar 32 2.
Definition Group32Var3 : GroupVariation := GroupVar 32 3.
Definition Group32Var4 : GroupVariation := GroupVar 32 4.
Definition Group40Var1 : GroupVariation := GroupVar 40 1.
Definition Group40Var2 : GroupVariation := GroupVar 40 2.
Definition Group42Var1 : GroupVariation := GroupVar 42 1.
Definition Group42Var2 : GroupVariation := GroupVar 42 2.
Definition Group42Var3 : GroupVariation := GroupVar 42 3.
Definition Group42Var4 : GroupVariation := GroupVar 42 4.

(** ** Exceptions *)

(** The texts of the [ValueError]s the translator raises, by raise site,
    with the values the f-string interpolates. *)
Inductive ValueError_msg :=
  (** ["val_to_set {val_to_set} of MasterCmdType group {group}, variation {variation} invalid."] *)
  | val_to_set_variation_invalid (val_to_set : PyVal) (group variation : Z)
  (** ["val_to_set {val_to_set} of MasterCmdType group {group} invalid."] *)
  | val_to_set_group_invalid (val_to_set : PyVal) (group : Z)
  (** ["master_cmd.rawCode {rawCode} is not a valid rawCode. (3: On/True, 4:Off/False."] *)
  | rawCode_not_valid (rawCode : Z)
  (** ["master_cmd {master_cmd} with type {type(master_cmd)} is not a valid command."] *)
  | not_a_valid_command (master_cmd : obj).

Inductive Exception :=
  | ValueError (msg : ValueError_msg)
  (** a missing key of [visitor_class_types] *)
  | KeyError_type (key : ICollectionIndexed)
  (** a missing key of a dict keyed by [GroupVariation] *)
  | KeyError_gv (key : GroupVariation)
  (** ['NoneType' object has no attribute ...] *)
  | AttributeError_None (attribute : string)
  (** ['NoneType' object is not subscriptable] *)
  | TypeError_None
  (** [incompatible function arguments]: the bindings refuse a value for
      a typed field or parameter *)
  | TypeError_arguments
  (** whatever the protocol engine raises *)
  | RuntimeError (what : string).

Inductive result (A : Type) :=
  | Ok (a : A)
  | Raise (e : Exception).
Arguments Ok {A} a.
Arguments Raise {A} e.

(** A computation on a mutable object of type [S]: the value or the
    exception, and the object as the call leaves it. *)
Definition M (S A : Type) : Type := S -> result A * S.

Definition ret {S A} (a : A) : M S A := fun s => (Ok a, s).
Definition raise {S A} (e : Exception) : M S A := fun s => (Raise e, s).
Definition bind {S A B} (m : M S A) (k : A -> M S B) : M S B :=
  fun s => match m s with
           | (Ok a, s') => k a s'
           | (Raise e, s') => (Raise e, s')
           end.
Definition get {S} : M S S := fun s => (Ok s, s).
Definition modify {S} (f : S -> S) : M S unit := fun s => (Ok tt, f s).
(** Lift a call that cannot mutate the object. *)
Definition lift {S A} (r : result A) : M S A := fun s => (r, s).
(** [try: body except Exception as e: handler(e)] *)
Definition try_except {S A} (body : M S A) (handler : Exception -> M S A) : M S A :=
  fun s => match body s with
           | (Ok a, s') => (Ok a, s')
           | (Raise e, s') => handler e s'
           end.

Notation "x <- m ;; k" := (bind m (fun x => k))
  (at level 100, m at next level, right associativity).
Notation "m ;;; k" := (bind m (fun _ => k))
  (at level 100, right associativity).


(** ** Typed fields of the bindings

    Assigning a Python value to a typed attribute, or passing it for a
    typed parameter, converts it as pybind11 does: an integer field takes
    an [int] (or [bool]) within its range and refuses a [float]; a
    floating-point field takes a [float], or an [int] or [bool] through
    its nearest double; everything else is refused with [TypeError]. *)

(** The double nearest to an integer (ties to even), as [float(z)]. *)
Definition nearest_double (z : Z) : float :=
  SF2Prim (binary_normalize 53 1024 z 0 false).

(** [float(z)], which Python refuses ([OverflowError]) when the nearest
    double would be infinite. *)
Definition double_of_int (z : Z) : option float :=
  if Z.abs z <? 2 ^ 1024 - 2 ^ 970 then Some (nearest_double z) else None.

(** The single-precision number nearest to a double (ties to even,
    infinite beyond the range), held as a double: what a [float] field
    keeps of the double it is given. *)
Definition to_float32 (f : float) : float :=
  match Prim2SF f with
  | S754_finite s m e => SF2Prim (binary_normalize 24 128 (cond_Zopp s (Z.pos m)) e s)
  | _ => f
  end.

(** A value for an integer field of range [lo..hi]. *)
Definition int_field (lo hi : Z) (v : PyVal) : result Z :=
  match v with
  | PyInt z => if bool_decide (lo <= z <= hi) then Ok z else Raise TypeError_arguments
  | PyBool b => Ok (if b then 1 else 0)
  | _ => Raise TypeError_arguments
  end.

(** A value for a [double] field. *)
Definition double_field (v : PyVal) : result float :=
  match v with
  | PyFloat f => Ok f
  | PyInt z =>
      match double_of_int z with
      | Some d => Ok d
      | None => Raise TypeError_arguments
      end
  | PyBool b => Ok (if b then 1%float else 0%float)
  | _ => Raise TypeError_arguments
  end.

(** A value for a [float] field. *)
Definition float_field (v : PyVal) : result float :=
  match double_field v with
  | Ok d => Ok (to_float32 d)
  | Raise e => Raise e
  end.

(** [obj.field = v], or [Class(field=v)]: the object with the converted
    value, or the exception of the conversion. *)
Definition assign {A} (converted : result A) (make : A -> obj) : result obj :=
  match converted with
  | Ok value => Ok (make value)
  | Raise e => Raise e
  end.

(** [for x in xs: body(x)] *)
Fixpoint for_each {S X} (xs : list X) (body : X -> M S unit) : M S unit :=
  match xs with
  | [] => ret tt
  | x :: xs' => body x ;;; for_each xs' body
  end.

(** ** The visitor classes of [.visitors] and what [Process] receives *)

(** The visitor classes, by name.  The last two are the integer-decoding
    variants of the analog and analog-output-status visitors. *)
Inductive Visitor :=
  | VisitorIndexedBinary
  | VisitorIndexedDoubleBitBinary
  | VisitorIndexedCounter
  | VisitorIndexedFrozenCounter
  | VisitorIndexedAnalog
  | VisitorIndexedBinaryOutputStatus
  | VisitorIndexedAnalogOutputStatus
  | VisitorIndexedTimeAndInterval
  | VisitorIndexedAnalogInt
  | VisitorIndexedAnalogOutputStatusInt.

#[global] Instance Visitor_eq_dec : EqDecision Visitor.
Proof. solve_decision. Defined.

(** [info]: the header a collection arrived under. *)
Record HeaderInfo := { gv : GroupVariation; headerIndex : Z }.

(** [values]: a collection of the protocol engine.  [type_of] is
    [type(values)]; [Foreach values visitor] is the [index_and_value] list
    a new instance of the visitor class holds after
    [values.Foreach(visitor)]. *)
Record Collection := {
  type_of : ICollectionIndexed;
  Foreach : Visitor -> list (Z * PyVal)
}.

(** The lookup table [visitor_class_types] of [Process]; a class that is
    not a key raises [KeyError]. *)
Definition visitor_class_types (t : ICollectionIndexed) : option Visitor :=
  match t with
  | ICollectionIndexedBinary => Some VisitorIndexedBinary
  | ICollectionIndexedDoubleBitBinary => Some VisitorIndexedDoubleBitBinary
  | ICollectionIndexedCounter => Some VisitorIndexedCounter
  | ICollectionIndexedFrozenCounter => Some VisitorIndexedFrozenCounter
  | ICollectionIndexedAnalog => Some VisitorIndexedAnalog
  | ICollectionIndexedBinaryOutputStatus => Some VisitorIndexedBinaryOutputStatus
  | ICollectionIndexedAnalogOutputStatus => Some VisitorIndexedAnalogOutputStatus
  | ICollectionIndexedTimeAndInterval => Some VisitorIndexedTimeAndInterval
  | ICollectionOther => None
  end.

(** Identity of a dict object. *)
Definition ref := positive.

(** [bool(d)] of a dict. *)
Definition dict_truth {K V} `{Countable K} (d : gmap K V) : bool :=
  negb (bool_decide (size d = 0%nat)).

(** ** [dnp3station/station_utils.py] *)
Module station_utils.

(** The attributes of a [SOEHandler], and the dict objects it created:
    [_gv_index_value_nested_dict] maps a GroupVariation to a dict, and
    the tuples of [_gv_ts_ind_val_dict] hold a reference to the same
    dict (or [None]). *)
Record SOEHandler := {
  objects : gmap ref (gmap Z PyVal);
  _gv_index_value_nested_dict : gmap GroupVariation ref;
  _gv_ts_ind_val_dict : gmap GroupVariation (datetime * option ref);
  _gv_last_poll_dict : gmap GroupVariation datetime
}.

(** [SOEHandler.__init__] *)
Definition __init__ : SOEHandler :=
  {| objects := ∅;
     _gv_index_value_nested_dict := ∅;
     _gv_ts_ind_val_dict := ∅;
     _gv_last_poll_dict := ∅ |}.

Definition set_objects (f : gmap ref (gmap Z PyVal) -> gmap ref (gmap Z PyVal))
    (self : SOEHandler) : SOEHandler :=
  {| objects := f (objects self);
     _gv_index_value_nested_dict := _gv_index_value_nested_dict self;
     _gv_ts_ind_val_dict := _gv_ts_ind_val_dict self;
     _gv_last_poll_dict := _gv_last_poll_dict self |}.

Definition set_nested (f : gmap GroupVariation ref -> gmap GroupVariation ref)
    (self : SOEHandler) : SOEHandler :=
  {| objects := objects self;
     _gv_index_value_nested_dict := f (_gv_index_value_nested_dict self);
     _gv_ts_ind_val_dict := _gv_ts_ind_val_dict self;
     _gv_last_poll_dict := _gv_last_poll_dict self |}.

Definition set_ts
    (f : gmap GroupVariation (datetime * option ref) ->
         gmap GroupVariation (datetime * option ref))
    (self : SOEHandler) : SOEHandler :=
  {| objects := objects self;
     _gv_index_value_nested_dict := _gv_index_value_nested_dict self;
     _gv_ts_ind_val_dict := f (_gv_ts_ind_val_dict self);
     _gv_last_poll_dict := _gv_last_poll_dict self |}.

Definition set_last_poll (f : gmap GroupVariation datetime -> gmap GroupVariation datetime)
    (self : SOEHandler) : SOEHandler :=
  {| objects := objects self;
     _gv_index_value_nested_dict := _gv_index_value_nested_dict self;
     _gv_ts_ind_val_dict := _gv_ts_ind_val_dict self;
     _gv_last_poll_dict := f (_gv_last_poll_dict self) |}.

(** The dict a reference designates. *)
Definition deref (self : SOEHandler) (r : ref) : gmap Z PyVal :=
  objects self !!! r.

(** [bool(x)] for [x] the result of [_gv_index_value_nested_dict.get(gv)]:
    [None] and the empty dict are false. *)
Definition truth (self : SOEHandler) (x : option ref) : bool :=
  match x with
  | None => false
  | Some r => dict_truth (deref self r)
  end.

(** [SOEHandler._post_process(info_gv, visitor_ind_val)].  [now1] and
    [now2] are what the two calls of [datetime.datetime.now()] return. *)
Definition _post_process (now1 now2 : datetime) (info_gv : GroupVariation)
    (visitor_ind_val : list (Z * PyVal)) (self : SOEHandler) : SOEHandler :=
  let self :=
    if negb (truth self (_gv_index_value_nested_dict self !! info_gv)) then
      let r := fresh (dom (objects self)) in
      set_nested <[info_gv := r]> (set_objects <[r := dict visitor_ind_val]> self)
    else
      match _gv_index_value_nested_dict self !! info_gv with
      | Some r =>
          set_objects <[r := dict_update (deref self r) (dict visitor_ind_val)]> self
      | None => self
      end in
  let self :=
    set_ts <[info_gv := (now1, _gv_index_value_nested_dict self !! info_gv)]> self in
  set_last_poll <[info_gv := now2]> self.
Arguments _post_process : simpl never.

(** The hot-fix of [Process]: the analog and analog-output-status
    visitors are replaced by their integer variants under the listed
    GroupVariations. *)
Definition Process_visitor (info_gv : GroupVariation) (visitor_class : Visitor)
  : Visitor :=
  if decide (visitor_class = VisitorIndexedAnalog) then
    if bool_decide (info_gv ∈ [Group30Var1; Group30Var2; Group30Var3; Group30Var4;
                               Group32Var1; Group32Var2; Group32Var3; Group32Var4])
    then VisitorIndexedAnalogInt
    else visitor_class
  else if decide (visitor_class = VisitorIndexedAnalogOutputStatus) then
    if bool_decide (info_gv ∈ [Group40Var1; Group40Var2;
                               Group42Var1; Group42Var2; Group42Var3; Group42Var4])
    then VisitorIndexedAnalogOutputStatusInt
    else visitor_class
  else visitor_class.

(** [SOEHandler.Process(info, values)] (the debug log lines left out). *)
Definition Process (now1 now2 : datetime) (info : HeaderInfo) (values : Collection)
  : M SOEHandler unit :=
  match visitor_class_types (type_of values) with
  | None => raise (KeyError_type (type_of values))
  | Some visitor_class =>
      let visitor := Process_visitor (gv info) visitor_class in
      let visitor_ind_val := Foreach values visitor in
      modify (_post_process now1 now2 (gv info) visitor_ind_val)
  end.

(** The property [gv_ts_ind_val_dict]: the dict itself. *)
Definition gv_ts_ind_val_dict
  : M SOEHandler (gmap GroupVariation (datetime * option ref)) :=
  self <- get ;; ret (_gv_ts_ind_val_dict self).

(** The property [gv_index_value_nested_dict]. *)
Definition gv_index_value_nested_dict : M SOEHandler (gmap GroupVariation ref) :=
  self <- get ;; ret (_gv_index_value_nested_dict self).

(** The property [gv_last_poll_dict]. *)
Definition gv_last_poll_dict : M SOEHandler (gmap GroupVariation datetime) :=
  self <- get ;; ret (_gv_last_poll_dict self).

(** [parsing_gv_to_mastercmdtype(group, variation, val_to_set)].  Under
    group 40 the class is chosen first and [master_cmd.value = val_to_set]
    then goes through the typed field of that class. *)
Definition parsing_gv_to_mastercmdtype (group variation : Z) (val_to_set : PyVal)
  : result obj :=
  if decide (group = 40) then
    if negb (bool_decide (type val_to_set ∈ [float_t; int_t])) then
      Raise (ValueError (val_to_set_variation_invalid val_to_set group variation))
    else if decide (variation = 1) then
      assign (int_field (-2147483648) 2147483647 val_to_set) AnalogOutputInt32
    else if decide (variation = 2) then
      assign (int_field (-32768) 32767 val_to_set) AnalogOutputInt16
    else if decide (variation = 3) then
      assign (float_field val_to_set) AnalogOutputFloat32
    else if decide (variation = 4) then
      assign (double_field val_to_set) AnalogOutputDouble64
    else Raise (ValueError (val_to_set_group_invalid val_to_set group))
  else if bool_decide (group = 10) && bool_decide (variation ∈ [1; 2]) then
    if negb (bool_decide (type val_to_set = bool_t)) then
      Raise (ValueError (val_to_set_variation_invalid val_to_set group variation))
    else match val_to_set with
         | PyBool true => Ok (ControlRelayOutputBlock 3)
         | _ => Ok (ControlRelayOutputBlock 4)
         end
  else Raise (ValueError (val_to_set_group_invalid val_to_set group)).

(** [master_to_outstation_command_parser(master_cmd)].  The value read
    from the command (a [float] or an [int]) is passed to
    [AnalogOutputStatus(value=...)], whose field is a double. *)
Definition master_to_outstation_command_parser (master_cmd : obj) : result obj :=
  match master_cmd with
  | AnalogOutputDouble64 value | AnalogOutputFloat32 value =>
      assign (double_field (PyFloat value)) AnalogOutputStatus
  | AnalogOutputInt32 value | AnalogOutputInt16 value =>
      assign (double_field (PyInt value)) AnalogOutputStatus
  | ControlRelayOutputBlock rawCode =>
      if decide (rawCode = 3) then Ok (BinaryOutputStatus true)
      else if decide (rawCode = 4) then Ok (BinaryOutputStatus false)
      else Raise (ValueError (rawCode_not_valid rawCode))
  | _ => Raise (ValueError (not_a_valid_command master_cmd))
  end.

(** What a client sees at [_gv_index_value_nested_dict.get(gv)]: the
    content of the staged dict. *)
Definition staged (self : SOEHandler) (gv : GroupVariation)
  : option (gmap Z PyVal) :=
  _gv_index_value_nested_dict self !! gv ≫= fun r => objects self !! r.

(** What a client sees at [d.get(gv)] for a dict [d] of time-stamped
    entries: the time stamp and the content of the referenced dict. *)
Definition entry (self : SOEHandler)
    (d : gmap GroupVariation (datetime * option ref)) (gv : GroupVariation)
  : option (datetime * option (gmap Z PyVal)) :=
  match d !! gv with
  | None => None
  | Some (ts, x) => Some (ts, x ≫= fun r => objects self !! r)
  end.

End station_utils.

(** ** [master_utils.py] *)
Module master_utils.

(** The attributes of a [SOEHandler] and the dict objects it created. *)
Record SOEHandler := {
  objects : gmap ref (gmap Z PyVal);
  _gv_index_value_nested_dict : gmap GroupVariation ref;
  _gv_ts_ind_val_dict : gmap GroupVariation (datetime * option ref);
  _stale_if_longer_than_in_sec : Z
}.

(** [SOEHandler.__init__] *)
Definition __init__ : SOEHandler :=
  {| objects := ∅;
     _gv_index_value_nested_dict := ∅;
     _gv_ts_ind_val_dict := ∅;
     _stale_if_longer_than_in_sec := 10 |}.

Definition set_objects (f : gmap ref (gmap Z PyVal) -> gmap ref (gmap Z PyVal))
    (self : SOEHandler) : SOEHandler :=
  {| objects := f (objects self);
     _gv_index_value_nested_dict := _gv_index_value_nested_dict self;
     _gv_ts_ind_val_dict := _gv_ts_ind_val_dict self;
     _stale_if_longer_than_in_sec := _stale_if_longer_than_in_sec self |}.

Definition set_nested (f : gmap GroupVariation ref -> gmap GroupVariation ref)
    (self : SOEHandler) : SOEHandler :=
  {| objects := objects self;
     _gv_index_value_nested_dict := f (_gv_index_value_nested_dict self);
     _gv_ts_ind_val_dict := _gv_ts_ind_val_dict self;
     _stale_if_longer_than_in_sec := _stale_if_longer_than_in_sec self |}.

Definition set_ts
    (f : gmap GroupVariation (datetime * option ref) ->
         gmap GroupVariation (datetime * option ref))
    (self : SOEHandler) : SOEHandler :=
  {| objects := objects self;
     _gv_index_value_nested_dict := _gv_index_value_nested_dict self;
     _gv_ts_ind_val_dict := f (_gv_ts_ind_val_dict self);
     _stale_if_longer_than_in_sec := _stale_if_longer_than_in_sec self |}.

Definition deref (self : SOEHandler) (r : ref) : gmap Z PyVal :=
  objects self !!! r.

Definition truth (self : SOEHandler) (x : option ref) : bool :=
  match x with
  | None => false
  | Some r => dict_truth (deref self r)
  end.

(** [SOEHandler._post_process(info_gv, visitor_ind_val)]; [now] is what
    [datetime.datetime.now()] returns. *)
Definition _post_process (now : datetime) (info_gv : GroupVariation)
    (visitor_ind_val : list (Z * PyVal)) (self : SOEHandler) : SOEHandler :=
  let self :=
    if negb (truth self (_gv_index_value_nested_dict self !! info_gv)) then
      let r := fresh (dom (objects self)) in
      set_nested <[info_gv := r]> (set_objects <[r := dict visitor_ind_val]> self)
    else
      match _gv_index_value_nested_dict self !! info_gv with
      | Some r =>
          set_objects <[r := dict_update (deref self r) (dict visitor_ind_val)]> self
      | None => self
      end in
  set_ts <[info_gv := (now, _gv_index_value_nested_dict self !! info_gv)]> self.
Arguments _post_process : simpl never.

(** [SOEHandler.Process(info, values)] (the debug log lines left out). *)
Definition Process (now : datetime) (info : HeaderInfo) (values : Collection)
  : M SOEHandler unit :=
  match visitor_class_types (type_of values) with
  | None => raise (KeyError_type (type_of values))
  | Some visitor_class =>
      let visitor_ind_val := Foreach values visitor_class in
      modify (_post_process now (gv info) visitor_ind_val)
  end.

(** One round of the loop of [_update_stale_db].  [now_gv] is what
    [datetime.datetime.now()] returns in this round. *)
Definition _update_stale_db_round (now_gv : datetime) (stale_if_longer_than : Z)
    (gv : GroupVariation) : M SOEHandler unit :=
  self <- get ;;
  match _gv_ts_ind_val_dict self !! gv with
  | None => raise TypeError_None
  | Some (last_update_time, _) =>
      if total_seconds_ge now_gv last_update_time stale_if_longer_than then
        modify (set_ts (delete gv)) ;;;
        self <- get ;;
        match _gv_index_value_nested_dict self !! gv with
        | None => raise (KeyError_gv gv)
        | Some _ => modify (set_nested (delete gv))
        end
      else ret tt
  end.

(** [SOEHandler._update_stale_db(stale_if_longer_than)].  The loop runs
    once for each key the dict had on entry; [now gv] is the clock
    reading of the round for [gv]. *)
Definition _update_stale_db (now : GroupVariation -> datetime)
    (stale_if_longer_than : Z) : M SOEHandler unit :=
  self <- get ;;
  let dict_keys := (map_to_list (_gv_ts_ind_val_dict self)).*1 in
  for_each dict_keys
    (fun gv => _update_stale_db_round (now gv) stale_if_longer_than gv).

(** The property [gv_index_value_nested_dict]. *)
Definition gv_index_value_nested_dict : M SOEHandler (gmap GroupVariation ref) :=
  self <- get ;; ret (_gv_index_value_nested_dict self).

(** The property [gv_ts_ind_val_dict]: sweep, then the dict itself. *)
Definition gv_ts_ind_val_dict (now : GroupVariation -> datetime)
  : M SOEHandler (gmap GroupVariation (datetime * option ref)) :=
  self <- get ;;
  _update_stale_db now (_stale_if_longer_than_in_sec self) ;;;
  self <- get ;;
  ret (_gv_ts_ind_val_dict self).

(** The calls a client or the protocol engine can make on a handler. *)
Inductive call :=
  | call_Process (now : datetime) (info : HeaderInfo) (values : Collection)
  | call__post_process (now : datetime) (info_gv : GroupVariation)
      (visitor_ind_val : list (Z * PyVal))
  | call__update_stale_db (now : GroupVariation -> datetime)
      (stale_if_longer_than : Z)
  | call_gv_index_value_nested_dict
  | call_gv_ts_ind_val_dict (now : GroupVariation -> datetime).

(** The handler after a call, whether the call returned or raised. *)
Definition exec (c : call) (self : SOEHandler) : SOEHandler :=
  match c with
  | call_Process now info values => (Process now info values self).2
  | call__post_process now info_gv visitor_ind_val =>
      _post_process now info_gv visitor_ind_val self
  | call__update_stale_db now stale_if_longer_than =>
      (_update_stale_db now stale_if_longer_than self).2
  | call_gv_index_value_nested_dict => (gv_index_value_nested_dict self).2
  | call_gv_ts_ind_val_dict now => (gv_ts_ind_val_dict now self).2
  end.

(** The handler after a sequence of calls on a new handler. *)
Definition run (calls : list call) : SOEHandler :=
  fold_left (fun self c => exec c self) calls __init__.

(** What a client sees at [d.get(gv)] for a dict [d] of time-stamped
    entries: the time stamp and the content of the referenced dict. *)
Definition entry (self : SOEHandler)
    (d : gmap GroupVariation (datetime * option ref)) (gv : GroupVariation)
  : option (datetime * option (gmap Z PyVal)) :=
  match d !! gv with
  | None => None
  | Some (ts, x) => Some (ts, x ≫= fun r => objects self !! r)
  end.

(** What a client sees at [_gv_index_value_nested_dict.get(gv)]. *)
Definition staged (self : SOEHandler) (gv : GroupVariation)
  : option (gmap Z PyVal) :=
  _gv_index_value_nested_dict self !! gv ≫= fun r => objects self !! r.

(** The two stores agree: they have the same keys, the tuple stored
    under a key holds the very dict the merged-value store holds under
    it, and that dict exists. *)
Definition consistent (self : SOEHandler) : Prop :=
  (forall gv, is_Some (_gv_ts_ind_val_dict self !! gv) <->
              is_Some (_gv_index_value_nested_dict self !! gv)) /\
  (forall gv ts x, _gv_ts_ind_val_dict self !! gv = Some (ts, x) ->
                   x = _gv_index_value_nested_dict self !! gv) /\
  (forall gv r, _gv_index_value_nested_dict self !! gv = Some r ->
                is_Some (objects self !! r)).

End master_utils.

(** ** [dnp3station/outstation_new.py] *)
Module outstation_new.

Inductive OperateType := SelectBeforeOperate | DirectOperate | DirectOperateNoAck.

(** What [_log] emits at its level ([INFO]): the [error] records. *)
Inductive LogRecord := ERROR (e : Exception).

(** [str(port)] *)
Definition str (n : Z) : string := pretty n.

(** [MyOutstationCommandHandler]: its one attribute. *)
Record MyOutstationCommandHandler := { outstation_id : string }.

(** [MyOutstationCommandHandler.post_init(outstation_id)] *)
Definition post_init (outstation_id : string) (self : MyOutstationCommandHandler)
  : MyOutstationCommandHandler :=
  {| outstation_id := outstation_id |}.

Section Engine.

(** The protocol engine behind an outstation application: its state
    (manager, channel, point database, the application's [db_handler])
    and what the application asks of it.  [engine_configure self] stands
    for the first part of the set-up in [__init__]: [configure_stack],
    [configure_database], [ConsoleLogger], [DNP3Manager], [ChannelRetry]
    and [AppChannelListener]; [engine_open self ip port] for
    [AddTCPServer] on the manager, once its arguments are converted, and
    [AddOutstation] on the channel; [engine_finish self] for what
    [__init__] does after it has registered the instance: [SetLogFilters]
    on the channel and the outstation and [DBHandler(...)].
    [engine_update self measurement index] stands for
    [UpdateBuilder().Update(measurement, index).Build()],
    [self.outstation.Apply(update)] and
    [self.db_handler.process(measurement, index)]; [engine_shutdown self]
    for [self.outstation.Shutdown()] and [self.channel.Shutdown()].  Each
    may raise. *)
Variable Engine : Type.
Variable engine_configure : ref -> Engine -> result unit * Engine.
Variable engine_open : ref -> string -> Z -> Engine -> result unit * Engine.
Variable engine_finish : ref -> Engine -> result unit * Engine.
Variable engine_update : ref -> obj -> Z -> Engine -> result unit * Engine.
Variable engine_shutdown : ref -> Engine -> result unit * Engine.

(** The state the module's code runs in: the class attribute
    [MyOutStationNew.outstation_application_pool], which maps an
    outstation id to an application instance (an object, by identity),
    the log, and the engine. *)
Record World := {
  outstation_application_pool : gmap string ref;
  logged : list LogRecord;
  engine : Engine
}.

Definition set_pool (f : gmap string ref -> gmap string ref) (w : World) : World :=
  {| outstation_application_pool := f (outstation_application_pool w);
     logged := logged w;
     engine := engine w |}.

Definition set_engine (e : Engine) (w : World) : World :=
  {| outstation_application_pool := outstation_application_pool w;
     logged := logged w;
     engine := e |}.

(** [_log.error(e)] *)
Definition _log_error (e : Exception) (w : World) : World :=
  {| outstation_application_pool := outstation_application_pool w;
     logged := logged w ++ [ERROR e];
     engine := engine w |}.

(** A call into the engine. *)
Definition on_engine (f : Engine -> result unit * Engine) : M World unit :=
  fun w => ((f (engine w)).1, set_engine (f (engine w)).2 w).

(** [MyOutStationNew.add_outstation_app(outstation_id, outstation_app)] *)
Definition add_outstation_app (outstation_id : string) (outstation_app : ref)
  : M World unit :=
  modify (set_pool <[outstation_id := outstation_app]>).

(** [MyOutStationNew.get_outstation_app(outstation_id)] *)
Definition get_outstation_app (outstation_id : string) : M World (option ref) :=
  w <- get ;; ret (outstation_application_pool w !! outstation_id).

(** [MyOutStationNew.__init__(masterstation_ip_str, outstation_ip_str,
    port, ...)] on the new instance [self], in the order of the source:
    the configuration and the manager; [AddTCPServer], whose [port]
    parameter is a 16-bit unsigned integer, so that the bindings refuse
    any other port with [TypeError] before the engine is called; the id
    derived from the address, and the command handler bound to it;
    [AddOutstation]; the instance added to the pool under the id; the
    log filters and the [DBHandler].  Each step of the engine may raise,
    and what follows it is then not run.  The value is the command
    handler the instance holds.  (The class attribute
    [outstation_application], which [__init__] also sets, is read by
    [AddOutstation] alone and is left to the engine.) *)
Definition __init__ (self : ref) (outstation_ip_str : string) (port : Z)
  : M World MyOutstationCommandHandler :=
  on_engine (engine_configure self) ;;;
  (if bool_decide (0 <= port <= 65535) then ret tt else raise TypeError_arguments) ;;;
  let outstation_id := outstation_ip_str +:+ "-" +:+ str port in
  let command_handler := post_init outstation_id {| outstation_id := "" |} in
  on_engine (engine_open self outstation_ip_str port) ;;;
  add_outstation_app outstation_id self ;;;
  on_engine (engine_finish self) ;;;
  ret command_handler.

(** [MyOutStationNew.shutdown()] (after its [time.sleep(2)]). *)
Definition shutdown (self : ref) : M World unit :=
  on_engine (engine_shutdown self).

(** [MyOutStationNew.apply_update(measurement, index)] *)
Definition apply_update (self : ref) (measurement : obj) (index : Z)
  : M World unit :=
  on_engine (engine_update self measurement index).

(** [MyOutStationNew.process_point_value(command_type, command, index, op_type)] *)
Definition process_point_value (self : ref) (command_type : string)
    (command : obj) (index : Z) (op_type : option OperateType) : M World unit :=
  outstation_cmd <- lift (station_utils.master_to_outstation_command_parser command) ;;
  apply_update self outstation_cmd index.

(** [outstation_app.process_point_value(...)] where [outstation_app]
    is the result of [dict.get]: on [None] the attribute lookup fails. *)
Definition call_process_point_value (outstation_app : option ref)
    (command_type : string) (command : obj) (index : Z)
    (op_type : option OperateType) : M World unit :=
  match outstation_app with
  | None => raise (AttributeError_None "process_point_value")
  | Some app => process_point_value app command_type command index op_type
  end.

(** [MyOutstationCommandHandler.Select(command, index)] *)
Definition Select (self : MyOutstationCommandHandler) (command : obj) (index : Z)
  : M World CommandStatus :=
  w <- get ;;
  let outstation_app := outstation_application_pool w !! outstation_id self in
  try_except
    (call_process_point_value outstation_app "Select" command index None ;;;
     ret SUCCESS)
    (fun e => modify (_log_error e) ;;; raise e).

(** [MyOutstationCommandHandler.Operate(command, index, op_type)] *)
Definition Operate (self : MyOutstationCommandHandler) (command : obj) (index : Z)
    (op_type : OperateType) : M World CommandStatus :=
  w <- get ;;
  let outstation_app := outstation_application_pool w !! outstation_id self in
  try_except
    (call_process_point_value outstation_app "Operate" command index (Some op_type) ;;;
     ret SUCCESS)
    (fun e => modify (_log_error e) ;;; raise e).

(** An inbound control request, as the protocol engine delivers it to
    the command handler: a call of [Select] or of [Operate]. *)
Inductive ControlRequest :=
  | SelectRequest (command : obj) (index : Z)
  | OperateRequest (command : obj) (index : Z) (op_type : OperateType).

Definition request_command (request : ControlRequest) : obj :=
  match request with
  | SelectRequest command _ | OperateRequest command _ _ => command
  end.

(** The handler's answer to a request. *)
Definition handle (self : MyOutstationCommandHandler) (request : ControlRequest)
  : M World CommandStatus :=
  match request with
  | SelectRequest command index => Select self command index
  | OperateRequest command index op_type => Operate self command index op_type
  end.

(** The call of [process_point_value] the handler makes for a request,
    on the instance [outstation_app] the pool gave it. *)
Definition processing (outstation_app : option ref) (request : ControlRequest)
  : M World unit :=
  match request with
  | SelectRequest command index =>
      call_process_point_value outstation_app "Select" command index None
  | OperateRequest command index op_type =>
      call_process_point_value outstation_app "Operate" command index (Some op_type)
  end.

(** The calls that run the module's code against the registry. *)
Inductive call :=
  | call___init__ (self : ref) (outstation_ip_str : string) (port : Z)
  | call_add_outstation_app (outstation_id : string) (outstation_app : ref)
  | call_get_outstation_app (outstation_id : string)
  | call_shutdown (self : ref)
  | call_apply_update (self : ref) (measurement : obj) (index : Z)
  | call_process_point_value_on (self : ref) (command_type : string)
      (command : obj) (index : Z) (op_type : option OperateType)
  | call_Select (handler : MyOutstationCommandHandler) (command : obj) (index : Z)
  | call_Operate (handler : MyOutstationCommandHandler) (command : obj)
      (index : Z) (op_type : OperateType).

(** The world after a call, whether it returned or raised. *)
Definition exec (c : call) (w : World) : World :=
  match c with
  | call___init__ self ip port => (__init__ self ip port w).2
  | call_add_outstation_app id app => (add_outstation_app id app w).2
  | call_get_outstation_app id => (get_outstation_app id w).2
  | call_shutdown self => (shutdown self w).2
  | call_apply_update self measurement index =>
      (apply_update self measurement index w).2
  | call_process_point_value_on self command_type command index op_type =>
      (process_point_value self command_type command index op_type w).2
  | call_Select handler command index => (Select handler command index w).2
  | call_Operate handler command index op_type =>
      (Operate handler command index op_type w).2
  end.

Definition run (calls : list call) (w : World) : World :=
  fold_left (fun w c => exec c w) calls w.

(** The id a call can register an instance under. *)
Definition registers (c : call) : option string :=
  match c with
  | call___init__ _ ip port => Some (ip +:+ "-" +:+ str port)
  | call_add_outstation_app id _ => Some id
  | _ => None
  end.

End Engine.

Arguments outstation_application_pool {Engine} w.
Arguments logged {Engine} w.
Arguments engine {Engine} w.
Arguments _log_error {Engine} e w.
Arguments add_outstation_app {Engine} outstation_id outstation_app.
Arguments get_outstation_app {Engine} outstation_id.
Arguments __init__ {Engine} engine_configure engine_open engine_finish
  self outstation_ip_str port.
Arguments call_process_point_value {Engine} engine_update.
Arguments process_point_value {Engine} engine_update.
Arguments apply_update {Engine} engine_update.
Arguments shutdown {Engine} engine_shutdown.
Arguments Select {Engine} engine_update.
Arguments Operate {Engine} engine_update.
Arguments handle {Engine} engine_update.
Arguments processing {Engine} engine_update.
Arguments exec {Engine} engine_configure engine_open engine_finish
  engine_update engine_shutdown.
Arguments run {Engine} engine_configure engine_open engine_finish
  engine_update engine_shutdown.

(** A world before any outstation was created. *)
Definition start {Engine} (e : Engine) : World Engine :=
  {| outstation_application_pool := ∅; logged := []; engine := e |}.

End outstation_new.

(** ** Further code of the three files *)

(** The dicts that the merged-value store references are separate
    objects: each exists, and no two GroupVariations share one. *)
Definition refs_separate (objects : gmap ref (gmap Z PyVal))
    (nested : gmap GroupVariation ref) : Prop :=
  (forall g r, nested !! g = Some r -> is_Some (objects !! r)) /\
  (forall g1 g2 r, nested !! g1 = Some r -> nested !! g2 = Some r -> g1 = g2).

(** [opendnp3.GroupVariationID]: a group number and a variation number. *)
Record GroupVariationID := { id_group : Z; id_variation : Z }.

Definition Group1Var2 : GroupVariation := GroupVar 1 2.
Definition Group2Var2 : GroupVariation := GroupVar 2 2.
Definition Group10Var2 : GroupVariation := GroupVar 10 2.
Definition Group11Var2 : GroupVariation := GroupVar 11 2.
Definition Group30Var6 : GroupVariation := GroupVar 30 6.
Definition Group40Var4 : GroupVariation := GroupVar 40 4.
Definition Group42Var8 : GroupVariation := GroupVar 42 8.

(** [s.rsplit(sep)] with no limit and a separator of one character: the
    pieces of [s] between the separators, never an empty list. *)
Fixpoint rsplit (sep : Ascii.ascii) (s : string) : list string :=
  match s with
  | EmptyString => [EmptyString]
  | String c s' =>
      if decide (c = sep) then EmptyString :: rsplit sep s'
      else match rsplit sep s' with
           | piece :: pieces => String c piece :: pieces
           | [] => [String c EmptyString]
           end
  end.

(** The character [/]. *)
Definition slash : Ascii.ascii := Ascii.ascii_of_nat 47.

(** The location [MyLogger.Log] prints (the same in [master_utils] and
    [station_utils]): [entry.location.rsplit('/')[-1] if entry.location
    else '']; [None] stands for the [IndexError] of [[-1]] on an empty
    list. *)
Definition Log_location (location : string) : option string :=
  if bool_decide (location = EmptyString) then Some EmptyString
  else last (rsplit slash location).

(** The text in front of the last piece: every earlier piece, each
    followed by the separator. *)
Definition pieces_prefix (sep : Ascii.ascii) (pieces : list string) : string :=
  foldr (fun piece rest => piece +:+ String sep rest) EmptyString pieces.

(** A string without the character. *)
Definition free_of (c : Ascii.ascii) (s : string) : Prop :=
  forall before after, s <> before +:+ String c after.

Module master_utils_rest.

(** [UnboundLocalError]: [gv_cls] is returned before any branch assigned it. *)
Inductive UnboundLocalError := gv_cls_unbound.

(** [master_utils.parsing_gvid_to_gvcls(gvid)]: the hard-coded chain of
    tests, with no [else]. *)
Definition parsing_gvid_to_gvcls (gvid : GroupVariationID)
  : UnboundLocalError + GroupVariation :=
  let group := id_group gvid in
  let variation := id_variation gvid in
  if bool_decide (group = 30) && bool_decide (variation = 6) then inr Group30Var6
  else if bool_decide (group = 30) && bool_decide (variation = 1) then inr Group30Var1
  else if bool_decide (group = 1) && bool_decide (variation = 2) then inr Group1Var2
  else if bool_decide (group = 40) && bool_decide (variation = 4) then inr Group40Var4
  else if bool_decide (group = 4) && bool_decide (variation = 1) then inr Group40Var1
  else if bool_decide (group = 10) && bool_decide (variation = 2) then inr Group10Var2
  else if bool_decide (group = 32) && bool_decide (variation = 4) then inr Group32Var4
  else if bool_decide (group = 2) && bool_decide (variation = 2) then inr Group2Var2
  else if bool_decide (group = 42) && bool_decide (variation = 8) then inr Group42Var8
  else if bool_decide (group = 11) && bool_decide (variation = 2) then inr Group11Var2
  else inl gv_cls_unbound.

(** The dicts of the handler are separate objects. *)
Definition separate (self : master_utils.SOEHandler) : Prop :=
  refs_separate (master_utils.objects self)
                (master_utils._gv_index_value_nested_dict self).

End master_utils_rest.

Module station_utils_rest.
Import station_utils.

(** The calls a client or the protocol engine can make on a handler. *)
Inductive call :=
  | call_Process (now1 now2 : datetime) (info : HeaderInfo) (values : Collection)
  | call__post_process (now1 now2 : datetime) (info_gv : GroupVariation)
      (visitor_ind_val : list (Z * PyVal))
  | call_gv_index_value_nested_dict
  | call_gv_ts_ind_val_dict
  | call_gv_last_poll_dict.

(** The handler after a call, whether the call returned or raised. *)
Definition exec (c : call) (self : SOEHandler) : SOEHandler :=
  match c with
  | call_Process now1 now2 info values => (Process now1 now2 info values self).2
  | call__post_process now1 now2 info_gv visitor_ind_val =>
      _post_process now1 now2 info_gv visitor_ind_val self
  | call_gv_index_value_nested_dict => (gv_index_value_nested_dict self).2
  | call_gv_ts_ind_val_dict => (gv_ts_ind_val_dict self).2
  | call_gv_last_poll_dict => (gv_last_poll_dict self).2
  end.

(** The handler after a sequence of calls on a new handler. *)
Definition run (calls : list call) : SOEHandler :=
  fold_left (fun self c => exec c self) calls __init__.

(** The three stores agree: they have the same keys, a time-stamped tuple
    holds the very dict the merged-value store holds under its key, and
    the dicts are separate objects. *)
Definition consistent (self : SOEHandler) : Prop :=
  (forall g, is_Some (_gv_ts_ind_val_dict self !! g) <->
             is_Some (_gv_index_value_nested_dict self !! g)) /\
  (forall g, is_Some (_gv_last_poll_dict self !! g) <->
             is_Some (_gv_index_value_nested_dict self !! g)) /\
  (forall g ts x, _gv_ts_ind_val_dict self !! g = Some (ts, x) ->
                  x = _gv_index_value_nested_dict self !! g) /\
  refs_separate (objects self) (_gv_index_value_nested_dict self).

(** The exception classes [parsing_gvid_to_gvcls] has to do with. *)
Inductive PyExc :=
  | AttributeError (attribute : string)
  | AssertionError
  | ValueError_class.

(** [isinstance(e, ValueError)], the test of the [except] clause. *)
Definition is_ValueError (e : PyExc) : bool :=
  match e with
  | ValueError_class => true
  | _ => false
  end.

(** What the variable [gv_cls] can hold: the [GroupVariationID] it is
    initialised with, or a member of [opendnp3.GroupVariation]. *)
Inductive gv_cls_value :=
  | an_id (gvid : GroupVariationID)
  | a_member (gv : GroupVariation).

(** The warning [_log.warning] emits, by the name it interpolates. *)
Inductive LogRecord := WARNING_not_valid (name : string).

Section GroupVariationEnum.

(** [getattr(opendnp3.GroupVariation, name)]: the member of that name, or
    nothing ([AttributeError]) when the enumeration has none. *)
Variable GroupVariation_getattr : string -> option GroupVariation.

(** [station_utils.parsing_gvid_to_gvcls(gvid)]: the returned value or
    the exception, and the warnings logged. *)
Definition parsing_gvid_to_gvcls (gvid : GroupVariationID)
  : (PyExc + gv_cls_value) * list LogRecord :=
  let group := id_group gvid in
  let variation := id_variation gvid in
  let gv_cls := an_id {| id_group := 30; id_variation := 6 |} in
  let name := "Group" +:+ outstation_new.str group +:+ "Var"
                +:+ outstation_new.str variation in
  let body : PyExc + gv_cls_value :=
    match GroupVariation_getattr name with
    | Some member => inr (a_member member)
    | None => inl (AttributeError name)
    end in
  match body with
  | inr gv_cls => (inr gv_cls, [])
  | inl e =>
      if is_ValueError e then (inr gv_cls, [WARNING_not_valid name])
      else (inl e, [])
  end.

End GroupVariationEnum.

End station_utils_rest.

(** * Properties *)

(** Closed decidable statements, by evaluation. *)
Ltac by_evaluation := apply (bool_decide_unpack _); vm_compute; exact I.

(** ** Python dicts *)
Section Dict.
Context {K V : Type} `{Countable K}.
Implicit Types (pairs before after : list (K * V)) (d other : gmap K V).

Lemma fold_insert_untouched pairs d k :
  k ∉ pairs.*1 ->
  fold_left (fun d kv => <[kv.1 := kv.2]> d) pairs d !! k = d !! k.
Proof.
  revert d. induction pairs as [| [k' v'] pairs IH]; intros d Hk; [done |].
  cbn in *. apply not_elem_of_cons in Hk as [Hne Hk].
  rewrite IH by done. by apply lookup_insert_ne.
Qed.

Lemma fold_insert_last before k v after d :
  k ∉ after.*1 ->
  fold_left (fun d kv => <[kv.1 := kv.2]> d) (before ++ (k, v) :: after) d !! k
    = Some v.
Proof.
  intros Hk. rewrite fold_left_app. cbn.
  rewrite fold_insert_untouched by done. apply lookup_insert_eq.
Qed.

(** A key that is in no pair is not in the dict. *)
Lemma dict_lookup_untouched pairs k : k ∉ pairs.*1 -> dict pairs !! k = None.
Proof. intros Hk. unfold dict. by rewrite fold_insert_untouched. Qed.

(** The last pair of a key decides its value. *)
Lemma dict_lookup_last before k v after :
  k ∉ after.*1 -> dict (before ++ (k, v) :: after) !! k = Some v.
Proof. apply fold_insert_last. Qed.

Lemma dict_update_lookup d other k :
  dict_update d other !! k =
    match other !! k with Some v => Some v | None => d !! k end.
Proof.
  unfold dict_update. destruct (other !! k) as [v |] eqn:Hk.
  - by apply lookup_union_Some_l.
  - by apply lookup_union_r.
Qed.

Lemma dict_update_empty other : dict_update (∅ : gmap K V) other = other.
Proof. unfold dict_update. apply (right_id_L ∅ (∪)). Qed.

Lemma dict_truth_false d : dict_truth d = false -> d = ∅.
Proof.
  unfold dict_truth. intros Hd. apply negb_false_iff, bool_decide_eq_true in Hd.
  by apply map_size_empty_iff.
Qed.

End Dict.

(** ** The command translator *)
Section CommandTranslator.
Import station_utils.

Lemma type_numeric_cases (v : PyVal) :
  type v ∈ [float_t; int_t] -> (exists f, v = PyFloat f) \/ (exists z, v = PyInt z).
Proof.
  destruct v; cbn; intros Hin; eauto;
    apply elem_of_cons in Hin as [Hin | Hin]; try discriminate;
    apply elem_of_cons in Hin as [Hin | Hin]; try discriminate;
    by apply elem_of_nil in Hin.
Qed.

Lemma parsing_group40_numeric (variation : Z) (v : PyVal) :
  type v ∈ [float_t; int_t] ->
  parsing_gv_to_mastercmdtype 40 variation v =
    if decide (variation = 1) then
      assign (int_field (-2147483648) 2147483647 v) AnalogOutputInt32
    else if decide (variation = 2) then
      assign (int_field (-32768) 32767 v) AnalogOutputInt16
    else if decide (variation = 3) then assign (float_field v) AnalogOutputFloat32
    else if decide (variation = 4) then assign (double_field v) AnalogOutputDouble64
    else Raise (ValueError (val_to_set_group_invalid v 40)).
Proof.
  intros Hin. unfold parsing_gv_to_mastercmdtype.
  rewrite decide_True by reflexivity.
  by rewrite bool_decide_eq_true_2.
Qed.

Lemma type_int_numeric (z : Z) : type (PyInt z) ∈ [float_t; int_t].
Proof. cbn. by_evaluation. Qed.

Lemma type_float_numeric (f : float) : type (PyFloat f) ∈ [float_t; int_t].
Proof. cbn. by_evaluation. Qed.

(** An integer field takes the integers of its range and no others. *)
Lemma int_field_int (lo hi z : Z) :
  int_field lo hi (PyInt z) =
    if decide (lo <= z <= hi) then Ok z else Raise TypeError_arguments.
Proof.
  unfold int_field. destruct (decide (lo <= z <= hi)) as [Hz | Hz].
  - by rewrite bool_decide_eq_true_2.
  - by rewrite bool_decide_eq_false_2.
Qed.

Lemma parsing_group40_var1 (v : PyVal) :
  type v ∈ [float_t; int_t] ->
  parsing_gv_to_mastercmdtype 40 1 v =
    assign (int_field (-2147483648) 2147483647 v) AnalogOutputInt32.
Proof. intros Hin. rewrite parsing_group40_numeric by done. by rewrite decide_True. Qed.

Lemma parsing_group40_var2 (v : PyVal) :
  type v ∈ [float_t; int_t] ->
  parsing_gv_to_mastercmdtype 40 2 v =
    assign (int_field (-32768) 32767 v) AnalogOutputInt16.
Proof.
  intros Hin. rewrite parsing_group40_numeric by done.
  rewrite decide_False by done. by rewrite decide_True.
Qed.

Lemma parsing_group40_var3 (v : PyVal) :
  type v ∈ [float_t; int_t] ->
  parsing_gv_to_mastercmdtype 40 3 v = assign (float_field v) AnalogOutputFloat32.
Proof.
  intros Hin. rewrite parsing_group40_numeric by done.
  do 2 rewrite decide_False by done. by rewrite decide_True.
Qed.

Lemma parsing_group40_var4 (v : PyVal) :
  type v ∈ [float_t; int_t] ->
  parsing_gv_to_mastercmdtype 40 4 v = assign (double_field v) AnalogOutputDouble64.
Proof.
  intros Hin. rewrite parsing_group40_numeric by done.
  do 3 rewrite decide_False by done. by rewrite decide_True.
Qed.

Lemma parsing_group40_not_numeric (variation : Z) (v : PyVal) :
  type v ∉ [float_t; int_t] ->
  parsing_gv_to_mastercmdtype 40 variation v =
    Raise (ValueError (val_to_set_variation_invalid v 40 variation)).
Proof.
  intros Hin. unfold parsing_gv_to_mastercmdtype.
  rewrite decide_True by reflexivity.
  by rewrite bool_decide_eq_false_2.
Qed.

(** C1. A relay block translates to a binary output status holding
    [true] when its raw code is 3 and [false] when it is 4; under every
    other raw code the translation raises the [ValueError] of an
    invalid raw code and yields no status. *)
Theorem relay_block_to_status (rawCode : Z) :
  let r := master_to_outstation_command_parser (ControlRelayOutputBlock rawCode) in
  (rawCode = 3 /\ r = Ok (BinaryOutputStatus true)) \/
  (rawCode = 4 /\ r = Ok (BinaryOutputStatus false)) \/
  (rawCode <> 3 /\ rawCode <> 4 /\
   r = Raise (ValueError (rawCode_not_valid rawCode))).
Proof.
  cbn. destruct (decide (rawCode = 3)) as [-> | H3]; [by left |].
  destruct (decide (rawCode = 4)) as [-> | H4]; [by right; left |].
  by right; right.
Qed.

(** C4, as the code has it.  Under group 40 the variation picks the
    class, 1, 2, 3, 4 for [AnalogOutputInt32], [AnalogOutputInt16],
    [AnalogOutputFloat32], [AnalogOutputDouble64], and the value goes
    through the typed field of that class.  An [int] within the 32-bit or
    16-bit range is carried as it is under variation 1 or 2, and a [float]
    is carried as it is under variation 4: so [(40, 4, 3.14)] gives a
    double-precision analog output carrying [3.14].  Under variation 3 the
    value is carried rounded to single precision, and under 3 and 4 an
    [int] is carried as its nearest double.  A [float] under variation 1
    or 2, and an [int] outside the range of the field, raise the
    [TypeError] of the bindings.  A value whose type is neither [float]
    nor [int] raises the [ValueError] of an invalid value whatever the
    variation: so [(40, 4, "x")] raises. *)
Theorem analog_output_command (variation z : Z) (f : float) (val_to_set : PyVal) :
  (-2147483648 <= z <= 2147483647 ->
   parsing_gv_to_mastercmdtype 40 1 (PyInt z) = Ok (AnalogOutputInt32 z)) /\
  (-32768 <= z <= 32767 ->
   parsing_gv_to_mastercmdtype 40 2 (PyInt z) = Ok (AnalogOutputInt16 z)) /\
  parsing_gv_to_mastercmdtype 40 3 (PyFloat f) = Ok (AnalogOutputFloat32 (to_float32 f)) /\
  parsing_gv_to_mastercmdtype 40 4 (PyFloat f) = Ok (AnalogOutputDouble64 f) /\
  (forall d, double_of_int z = Some d ->
     parsing_gv_to_mastercmdtype 40 3 (PyInt z) = Ok (AnalogOutputFloat32 (to_float32 d)) /\
     parsing_gv_to_mastercmdtype 40 4 (PyInt z) = Ok (AnalogOutputDouble64 d)) /\
  parsing_gv_to_mastercmdtype 40 1 (PyFloat f) = Raise TypeError_arguments /\
  parsing_gv_to_mastercmdtype 40 2 (PyFloat f) = Raise TypeError_arguments /\
  (~ -2147483648 <= z <= 2147483647 ->
   parsing_gv_to_mastercmdtype 40 1 (PyInt z) = Raise TypeError_arguments) /\
  (~ -32768 <= z <= 32767 ->
   parsing_gv_to_mastercmdtype 40 2 (PyInt z) = Raise TypeError_arguments) /\
  (double_of_int z = None ->
   parsing_gv_to_mastercmdtype 40 3 (PyInt z) = Raise TypeError_arguments /\
   parsing_gv_to_mastercmdtype 40 4 (PyInt z) = Raise TypeError_arguments) /\
  (type val_to_set ∉ [float_t; int_t] ->
     parsing_gv_to_mastercmdtype 40 variation val_to_set =
       Raise (ValueError (val_to_set_variation_invalid val_to_set 40 variation))) /\
  parsing_gv_to_mastercmdtype 40 4 (PyFloat 3.14%float) =
    Ok (AnalogOutputDouble64 3.14%float) /\
  parsing_gv_to_mastercmdtype 40 4 (PyStr "x") =
    Raise (ValueError (val_to_set_variation_invalid (PyStr "x") 40 4)).
Proof.
  pose proof (type_int_numeric z) as Hint.
  pose proof (type_float_numeric f) as Hfloat.
  pose proof (type_float_numeric 3.14%float) as Hpi.
  rewrite !(parsing_group40_var1 _ Hint), !(parsing_group40_var2 _ Hint),
    !(parsing_group40_var3 _ Hint), !(parsing_group40_var4 _ Hint),
    !(parsing_group40_var1 _ Hfloat), !(parsing_group40_var2 _ Hfloat),
    !(parsing_group40_var3 _ Hfloat), !(parsing_group40_var4 _ Hfloat),
    (parsing_group40_var4 _ Hpi).
  rewrite !int_field_int. unfold float_field. cbn [assign double_field].
  split; [intros Hz; by rewrite decide_True |].
  split; [intros Hz; by rewrite decide_True |].
  split; [done |]. split; [done |].
  split; [intros d Hd; by rewrite Hd |].
  split; [done |]. split; [done |].
  split; [intros Hz; by rewrite decide_False |].
  split; [intros Hz; by rewrite decide_False |].
  split; [intros Hd; by rewrite Hd |].
  split; [apply parsing_group40_not_numeric |].
  split; [done |].
  apply parsing_group40_not_numeric. cbn. by_evaluation.
Qed.

Lemma analog_output_command_witness :
  (-2147483648 <= 7 <= 2147483647) /\
  parsing_gv_to_mastercmdtype 40 1 (PyInt 7) = Ok (AnalogOutputInt32 7) /\
  (~ -32768 <= 70000 <= 32767) /\
  parsing_gv_to_mastercmdtype 40 2 (PyInt 70000) = Raise TypeError_arguments /\
  (type PyNone ∉ [float_t; int_t]) /\
  parsing_gv_to_mastercmdtype 40 1 PyNone =
    Raise (ValueError (val_to_set_variation_invalid PyNone 40 1)).
Proof.
  assert (Hin : -2147483648 <= 7 <= 2147483647) by lia.
  assert (Hout : ~ -32768 <= 70000 <= 32767) by lia.
  assert (Hnone : type PyNone ∉ [float_t; int_t]) by (cbn; by_evaluation).
  split; [exact Hin |]. split.
  { exact (proj1 (analog_output_command 1 7 0%float PyNone) Hin). }
  split; [exact Hout |]. split.
  { exact (proj1 (proj2 (proj2 (proj2 (proj2 (proj2 (proj2 (proj2 (proj2
             (analog_output_command 1 70000 0%float PyNone))))))))) Hout). }
  split; [exact Hnone |].
  exact (proj1 (proj2 (proj2 (proj2 (proj2 (proj2 (proj2 (proj2 (proj2 (proj2 (proj2
           (analog_output_command 1 7 0%float PyNone))))))))))) Hnone).
Defined.

(** C4, as stated, fails where the value does not fit the typed field of
    the class: [(40, 1, 3.14)] and [(40, 2, 70000)] raise [TypeError] and
    return no command, [(40, 3, 3.14)] carries the single-precision
    neighbour of 3.14, which is another number, and [(40, 4, 7)] carries
    the float 7.0. *)
Lemma analog_output_value_not_verbatim :
  parsing_gv_to_mastercmdtype 40 1 (PyFloat 3.14%float) = Raise TypeError_arguments /\
  parsing_gv_to_mastercmdtype 40 2 (PyInt 70000) = Raise TypeError_arguments /\
  parsing_gv_to_mastercmdtype 40 3 (PyFloat 3.14%float) =
    Ok (AnalogOutputFloat32 0x1.91eb86p+1%float) /\
  (0x1.91eb86p+1 =? 3.14)%float = false /\
  parsing_gv_to_mastercmdtype 40 4 (PyInt 7) = Ok (AnalogOutputDouble64 7%float).
Proof. repeat split; vm_compute; reflexivity. Qed.

(** C8. For each boolean [b], the command built for [(10, 2, b)] is a
    relay block, and translating it gives a binary output status
    holding exactly [b]; the same under variation 1. *)
Theorem relay_round_trip (b : bool) :
  exists master_cmd,
    parsing_gv_to_mastercmdtype 10 2 (PyBool b) = Ok master_cmd /\
    parsing_gv_to_mastercmdtype 10 1 (PyBool b) = Ok master_cmd /\
    master_to_outstation_command_parser master_cmd = Ok (BinaryOutputStatus b).
Proof.
  destruct b.
  - by exists (ControlRelayOutputBlock 3).
  - by exists (ControlRelayOutputBlock 4).
Qed.

(** C9. Under group 40 and any variation a boolean value raises the
    [ValueError] of an invalid value: the test is on the exact type,
    and [bool] is neither [float] nor [int]. *)
Theorem analog_output_rejects_bool (variation : Z) (b : bool) :
  (type (PyBool b) ∉ [float_t; int_t]) /\
  parsing_gv_to_mastercmdtype 40 variation (PyBool b) =
    Raise (ValueError (val_to_set_variation_invalid (PyBool b) 40 variation)).
Proof.
  assert (Hty : type (PyBool b) ∉ [float_t; int_t]) by (cbn; by_evaluation).
  split; [exact Hty |]. by apply parsing_group40_not_numeric.
Qed.

End CommandTranslator.

(** ** Staging in [station_utils.SOEHandler] *)
Section StationStaging.
Import station_utils.

(** The dict [_post_process] merges into: the one staged, or nothing. *)
Lemma staged_default_deref (self : SOEHandler) (gv : GroupVariation) :
  default ∅ (staged self gv) =
    match _gv_index_value_nested_dict self !! gv with
    | Some r => deref self r
    | None => ∅
    end.
Proof.
  unfold staged, deref. destruct (_gv_index_value_nested_dict self !! gv) as [r |]; [| done].
  cbn. by rewrite lookup_total_alt.
Qed.

Lemma post_process_staged now1 now2 gv batch (self : SOEHandler) :
  let self' := _post_process now1 now2 gv batch self in
  exists r,
    _gv_index_value_nested_dict self' !! gv = Some r /\
    objects self' !! r =
      Some (dict_update (default ∅ (staged self gv)) (dict batch)) /\
    _gv_ts_ind_val_dict self' !! gv = Some (now1, Some r) /\
    _gv_last_poll_dict self' !! gv = Some now2.
Proof.
  cbn zeta. rewrite staged_default_deref. unfold _post_process.
  destruct (truth self (_gv_index_value_nested_dict self !! gv)) eqn:Htruth; cbn.
  - destruct (_gv_index_value_nested_dict self !! gv) as [r |] eqn:Hr; [| done].
    exists r. cbn. rewrite Hr. by rewrite !lookup_insert_eq.
  - exists (fresh (dom (objects self))). rewrite !lookup_insert_eq.
    split; [done |]. split; [| done]. f_equal.
    destruct (_gv_index_value_nested_dict self !! gv) as [r |] eqn:Hr.
    + cbn in Htruth. apply dict_truth_false in Htruth. rewrite Htruth.
      by rewrite dict_update_empty.
    + by rewrite dict_update_empty.
Qed.

(** C3. An observation merges into what is staged for its
    GroupVariation.  Whatever the handler holds, after [_post_process] the
    staged dict of the GroupVariation is the batch laid over the dict
    staged before (over nothing at the first observation): an index that
    the batch does not name keeps its value, an index that it names takes
    the value of its last pair.  The time-stamped entry holds the first
    clock reading and the same dict, and the last-poll dict the second
    reading.  A second observation merges into the result of the first. *)
Theorem staging_merges (now1 now2 now3 now4 : datetime) (info_gv : GroupVariation)
    (visitor_ind_val later : list (Z * PyVal)) (self : SOEHandler) :
  let old := default ∅ (staged self info_gv) in
  let self' := _post_process now1 now2 info_gv visitor_ind_val self in
  let self'' := _post_process now3 now4 info_gv later self' in
  exists merged,
    staged self' info_gv = Some merged /\
    merged = dict_update old (dict visitor_ind_val) /\
    (staged self info_gv = None -> merged = dict visitor_ind_val) /\
    (forall index, index ∉ visitor_ind_val.*1 -> merged !! index = old !! index) /\
    (forall before index value after,
       visitor_ind_val = before ++ (index, value) :: after ->
       index ∉ after.*1 -> merged !! index = Some value) /\
    entry self' (_gv_ts_ind_val_dict self') info_gv = Some (now1, Some merged) /\
    _gv_last_poll_dict self' !! info_gv = Some now2 /\
    staged self'' info_gv = Some (dict_update merged (dict later)) /\
    entry self'' (_gv_ts_ind_val_dict self'') info_gv =
      Some (now3, Some (dict_update merged (dict later))).
Proof.
  cbn zeta.
  destruct (post_process_staged now1 now2 info_gv visitor_ind_val self)
    as (r & Hnested & Hobj & Hts & Hpoll).
  assert (Hstaged : staged (_post_process now1 now2 info_gv visitor_ind_val self) info_gv
                    = Some (dict_update (default ∅ (staged self info_gv))
                                        (dict visitor_ind_val))).
  { unfold staged at 1. rewrite Hnested. exact Hobj. }
  destruct (post_process_staged now3 now4 info_gv later
              (_post_process now1 now2 info_gv visitor_ind_val self))
    as (r2 & Hnested2 & Hobj2 & Hts2 & _).
  rewrite Hstaged in Hobj2. cbn in Hobj2.
  eexists. split; [exact Hstaged |]. split; [done |].
  repeat split.
  - intros ->. cbn. by rewrite dict_update_empty.
  - intros index Hindex. rewrite dict_update_lookup.
    by rewrite dict_lookup_untouched.
  - intros before index value after -> Hindex. rewrite dict_update_lookup.
    by rewrite dict_lookup_last.
  - unfold entry. rewrite Hts. cbn. by rewrite Hobj.
  - exact Hpoll.
  - unfold staged at 1. rewrite Hnested2. exact Hobj2.
  - unfold entry. rewrite Hts2. cbn. by rewrite Hobj2.
Qed.

(** The specification's example: [{1: 10.0}] then [{2: 20.0}] under
    [Group30Var1] stage [{1: 10.0, 2: 20.0}]. *)
Lemma staging_merges_witness :
  staged __init__ Group30Var1 = None /\
  staged (_post_process 7 8 Group30Var1 [(2, PyFloat 20%float)]
            (_post_process 5 6 Group30Var1 [(1, PyFloat 10%float)] __init__))
         Group30Var1
    = Some (dict [(1, PyFloat 10%float); (2, PyFloat 20%float)]).
Proof.
  split; [reflexivity |].
  destruct (staging_merges 5 6 7 8 Group30Var1 [(1, PyFloat 10%float)] [(2, PyFloat 20%float)]
              __init__) as (merged & _ & _ & Hfirst & _ & _ & _ & _ & Hsecond & _).
  rewrite Hsecond, (Hfirst eq_refl). reflexivity.
Defined.

End StationStaging.

(** ** The value visitor dispatch of [station_utils.SOEHandler.Process] *)
Section ValueVisitor.
Import station_utils.

(** The GroupVariations under which an analog collection is decoded
    with the integer visitor are groups 30 and 32, variations 1 to 4. *)
Lemma integer_analog_variations (g : GroupVariation) :
  g ∈ [Group30Var1; Group30Var2; Group30Var3; Group30Var4;
       Group32Var1; Group32Var2; Group32Var3; Group32Var4] <->
  (group g = 30 \/ group g = 32)%N /\ (1 <= variation g <= 4)%N.
Proof.
  destruct g as [grp var]. cbn. rewrite !elem_of_cons, elem_of_nil.
  unfold Group30Var1, Group30Var2, Group30Var3, Group30Var4,
    Group32Var1, Group32Var2, Group32Var3, Group32Var4.
  split.
  - intros H; repeat (destruct H as [H | H]; [injection H as -> ->; lia |]); done.
  - intros [[-> | ->] Hvar];
      (assert (var = 1 \/ var = 2 \/ var = 3 \/ var = 4)%N as Hcases by lia);
      destruct Hcases as [-> | [-> | [-> | ->]]]; tauto.
Qed.

(** The GroupVariations under which an analog-output-status collection
    is decoded with the integer visitor are group 40, variations 1 and 2,
    and group 42, variations 1 to 4. *)
Lemma integer_status_variations (g : GroupVariation) :
  g ∈ [Group40Var1; Group40Var2;
       Group42Var1; Group42Var2; Group42Var3; Group42Var4] <->
  (group g = 40 /\ 1 <= variation g <= 2)%N \/
  (group g = 42 /\ 1 <= variation g <= 4)%N.
Proof.
  destruct g as [grp var]. cbn. rewrite !elem_of_cons, elem_of_nil.
  unfold Group40Var1, Group40Var2, Group42Var1, Group42Var2, Group42Var3, Group42Var4.
  split.
  - intros H; repeat (destruct H as [H | H]; [injection H as -> ->; lia |]); done.
  - intros [[-> Hvar] | [-> Hvar]].
    + assert (var = 1 \/ var = 2)%N as Hcases by lia.
      destruct Hcases as [-> | ->]; tauto.
    + assert (var = 1 \/ var = 2 \/ var = 3 \/ var = 4)%N as Hcases by lia.
      destruct Hcases as [-> | [-> | [-> | ->]]]; tauto.
Qed.

Lemma Process_visitor_analog (g : GroupVariation) :
  Process_visitor g VisitorIndexedAnalog =
    if bool_decide (g ∈ [Group30Var1; Group30Var2; Group30Var3; Group30Var4;
                         Group32Var1; Group32Var2; Group32Var3; Group32Var4])
    then VisitorIndexedAnalogInt else VisitorIndexedAnalog.
Proof. unfold Process_visitor. by rewrite decide_True. Qed.

Lemma Process_visitor_status (g : GroupVariation) :
  Process_visitor g VisitorIndexedAnalogOutputStatus =
    if bool_decide (g ∈ [Group40Var1; Group40Var2;
                         Group42Var1; Group42Var2; Group42Var3; Group42Var4])
    then VisitorIndexedAnalogOutputStatusInt else VisitorIndexedAnalogOutputStatus.
Proof.
  unfold Process_visitor. rewrite decide_False by done. by rewrite decide_True.
Qed.

(** C5. [Process] chooses the visitor of an analog or an
    analog-output-status collection from the header's GroupVariation.  An
    analog collection is decoded with the integer visitor under 30.1-30.4
    and 32.1-32.4 and with the plain (double) analog visitor under every
    other GroupVariation; an analog-output-status collection is decoded
    with the integer visitor under 40.1, 40.2 and 42.1-42.4 and with the
    plain (double) visitor otherwise.  What is staged is what that visitor
    collected from the same collection. *)
Theorem visitor_by_group_variation (now1 now2 : datetime) (info : HeaderInfo)
    (values : Collection) (self : SOEHandler) :
  let integer_analog :=
    bool_decide ((group (gv info) = 30 \/ group (gv info) = 32)%N /\
                 (1 <= variation (gv info) <= 4)%N) in
  let integer_status :=
    bool_decide ((group (gv info) = 40 /\ 1 <= variation (gv info) <= 2)%N \/
                 (group (gv info) = 42 /\ 1 <= variation (gv info) <= 4)%N) in
  (type_of values = ICollectionIndexedAnalog ->
   Process now1 now2 info values self =
     (Ok tt,
      _post_process now1 now2 (gv info)
        (Foreach values (if integer_analog then VisitorIndexedAnalogInt
                         else VisitorIndexedAnalog)) self)) /\
  (type_of values = ICollectionIndexedAnalogOutputStatus ->
   Process now1 now2 info values self =
     (Ok tt,
      _post_process now1 now2 (gv info)
        (Foreach values (if integer_status then VisitorIndexedAnalogOutputStatusInt
                         else VisitorIndexedAnalogOutputStatus)) self)).
Proof.
  cbn zeta. split; intros Htype; unfold Process; rewrite Htype; cbn; unfold modify.
  - rewrite Process_visitor_analog.
    by rewrite (bool_decide_ext _ _ (integer_analog_variations (gv info))).
  - rewrite Process_visitor_status.
    by rewrite (bool_decide_ext _ _ (integer_status_variations (gv info))).
Qed.

Lemma visitor_by_group_variation_witness :
  let ints : Collection :=
    {| type_of := ICollectionIndexedAnalog;
       Foreach := fun visitor =>
         match visitor with
         | VisitorIndexedAnalogInt => [(0, PyInt 3)]
         | _ => [(0, PyFloat 3.14%float)]
         end |} in
  type_of ints = ICollectionIndexedAnalog /\
  staged (Process 5 6 {| gv := Group30Var1; headerIndex := 0 |} ints __init__).2
         Group30Var1 = Some (dict [(0, PyInt 3)]) /\
  staged (Process 5 6 {| gv := GroupVar 30 5; headerIndex := 0 |} ints __init__).2
         (GroupVar 30 5) = Some (dict [(0, PyFloat 3.14%float)]).
Proof.
  intros ints. split; [reflexivity |]. split.
  - rewrite (proj1 (visitor_by_group_variation 5 6
                      {| gv := Group30Var1; headerIndex := 0 |} ints __init__) eq_refl).
    reflexivity.
  - rewrite (proj1 (visitor_by_group_variation 5 6
                      {| gv := GroupVar 30 5; headerIndex := 0 |} ints __init__) eq_refl).
    reflexivity.
Defined.

End ValueVisitor.

(** ** Staging and eviction in [master_utils.SOEHandler] *)
Section MasterStaging.
Import master_utils.

Lemma master_staged_default_deref (self : SOEHandler) (g : GroupVariation) :
  default ∅ (staged self g) =
    match _gv_index_value_nested_dict self !! g with
    | Some r => deref self r
    | None => ∅
    end.
Proof.
  unfold staged, deref.
  destruct (_gv_index_value_nested_dict self !! g) as [r |]; [| done].
  cbn. by rewrite lookup_total_alt.
Qed.

(** What [_post_process] does to each attribute: one dict [r] holds the
    merged content, and both stores map the GroupVariation to it. *)
Lemma master_post_process_spec now g batch (self : SOEHandler) :
  let self' := _post_process now g batch self in
  exists r,
    objects self' =
      <[r := dict_update (default ∅ (staged self g)) (dict batch)]> (objects self) /\
    _gv_index_value_nested_dict self' = <[g := r]> (_gv_index_value_nested_dict self) /\
    _gv_ts_ind_val_dict self' = <[g := (now, Some r)]> (_gv_ts_ind_val_dict self) /\
    _stale_if_longer_than_in_sec self' = _stale_if_longer_than_in_sec self.
Proof.
  cbn zeta. rewrite master_staged_default_deref. unfold _post_process.
  destruct (truth self (_gv_index_value_nested_dict self !! g)) eqn:Htruth; cbn.
  - destruct (_gv_index_value_nested_dict self !! g) as [r |] eqn:Hr; [| done].
    exists r. cbn. rewrite Hr. by rewrite (insert_id _ _ _ Hr).
  - exists (fresh (dom (objects self))). rewrite lookup_insert_eq.
    split; [| done]. f_equal.
    destruct (_gv_index_value_nested_dict self !! g) as [r |] eqn:Hr.
    + cbn in Htruth. apply dict_truth_false in Htruth. rewrite Htruth.
      by rewrite dict_update_empty.
    + by rewrite dict_update_empty.
Qed.

Lemma init_consistent : consistent __init__.
Proof.
  unfold consistent, __init__; cbn. split; [| split].
  - intros g. by rewrite !lookup_empty.
  - intros g ts x. by rewrite lookup_empty.
  - intros g r. by rewrite lookup_empty.
Qed.

Lemma post_process_consistent now g batch (self : SOEHandler) :
  consistent self -> consistent (_post_process now g batch self).
Proof.
  intros (Hkeys & Hsame & Halloc).
  destruct (master_post_process_spec now g batch self) as (r & Hobj & Hnested & Hts & _).
  unfold consistent. rewrite Hobj, Hnested, Hts. split; [| split].
  - intros g'. destruct (decide (g = g')) as [<- | Hne].
    + rewrite !lookup_insert_eq. split; eauto.
    + rewrite !lookup_insert_ne by done. apply Hkeys.
  - intros g' ts x. destruct (decide (g = g')) as [<- | Hne].
    + rewrite !lookup_insert_eq. by intros [= <- <-].
    + rewrite !lookup_insert_ne by done. apply Hsame.
  - intros g' r'. destruct (decide (g = g')) as [<- | Hne].
    + rewrite lookup_insert_eq. intros [= <-]. rewrite lookup_insert_eq. eauto.
    + rewrite lookup_insert_ne by done. intros Hr'.
      destruct (decide (r = r')) as [<- | Hner].
      * rewrite lookup_insert_eq. eauto.
      * rewrite lookup_insert_ne by done. by eapply Halloc.
Qed.

(** Whether the sweep finds the entry of a GroupVariation stale. *)
Lemma round_spec now_gv stale g (self : SOEHandler) ts x r :
  _gv_ts_ind_val_dict self !! g = Some (ts, x) ->
  _gv_index_value_nested_dict self !! g = Some r ->
  _update_stale_db_round now_gv stale g self =
    (Ok tt,
     if total_seconds_ge now_gv ts stale
     then set_nested (delete g) (set_ts (delete g) self)
     else self).
Proof.
  intros Hts Hnested. unfold _update_stale_db_round, bind, get. rewrite Hts.
  destruct (total_seconds_ge now_gv ts stale); [| done].
  unfold modify. cbn. by rewrite Hnested.
Qed.

(** The loop of the sweep over keys that both stores hold: it never
    raises, removes from both stores the listed keys whose entry is stale,
    and leaves everything else as it was. *)
Lemma sweep_loop_spec (now : GroupVariation -> datetime) stale
    (keys : list GroupVariation) (self : SOEHandler) :
  NoDup keys ->
  (forall g, g ∈ keys ->
     is_Some (_gv_ts_ind_val_dict self !! g) /\
     is_Some (_gv_index_value_nested_dict self !! g)) ->
  exists self',
    for_each keys (fun g => _update_stale_db_round (now g) stale g) self
      = (Ok tt, self') /\
    objects self' = objects self /\
    _stale_if_longer_than_in_sec self' = _stale_if_longer_than_in_sec self /\
    (forall g ts x, _gv_ts_ind_val_dict self !! g = Some (ts, x) ->
       g ∈ keys -> total_seconds_ge (now g) ts stale = true ->
       _gv_ts_ind_val_dict self' !! g = None /\
       _gv_index_value_nested_dict self' !! g = None) /\
    (forall g, (forall ts x, _gv_ts_ind_val_dict self !! g = Some (ts, x) ->
                  g ∈ keys -> total_seconds_ge (now g) ts stale = false) ->
       _gv_ts_ind_val_dict self' !! g = _gv_ts_ind_val_dict self !! g /\
       _gv_index_value_nested_dict self' !! g = _gv_index_value_nested_dict self !! g).
Proof.
  revert self. induction keys as [| k keys IH]; intros self Hnodup Hkeys.
  - exists self. do 3 (split; [done |]). split; [| done].
    intros g ts x _ Hin. by apply elem_of_nil in Hin.
  - apply NoDup_cons in Hnodup as [Hk Hnodup].
    destruct (Hkeys k) as [[[ts x] Hts] [r Hnested]]; [left |].
    cbn [for_each]. unfold bind at 1.
    rewrite (round_spec _ _ _ _ _ _ _ Hts Hnested).
    set (self1 := if total_seconds_ge (now k) ts stale
                  then set_nested (delete k) (set_ts (delete k) self) else self).
    assert (Hother : forall g, g <> k ->
              _gv_ts_ind_val_dict self1 !! g = _gv_ts_ind_val_dict self !! g /\
              _gv_index_value_nested_dict self1 !! g =
                _gv_index_value_nested_dict self !! g).
    { intros g Hg. unfold self1. destruct (total_seconds_ge (now k) ts stale); [| done].
      cbn. by rewrite !lookup_delete_ne. }
    destruct (IH self1) as (self' & Hrun & Hobj & Hstale & Hevict & Hkeep); [done | |].
    { intros g Hg. assert (g <> k) as Hne by (intros ->; done).
      destruct (Hother g Hne) as [-> ->]. apply Hkeys. by right. }
    exists self'. split; [exact Hrun |].
    split; [rewrite Hobj; unfold self1; by destruct (total_seconds_ge _ _ _) |].
    split; [rewrite Hstale; unfold self1; by destruct (total_seconds_ge _ _ _) |].
    split.
    + intros g ts' x' Hts' Hin Hge.
      destruct (decide (g = k)) as [-> | Hne].
      * rewrite Hts in Hts'. injection Hts' as <- <-.
        assert (_gv_ts_ind_val_dict self1 !! k = None /\
                _gv_index_value_nested_dict self1 !! k = None) as [Hts1 Hnested1].
        { unfold self1. rewrite Hge. cbn. by rewrite !lookup_delete_eq. }
        destruct (Hkeep k) as [-> ->]; [| done].
        intros ts' x'. by rewrite Hts1.
      * apply elem_of_cons in Hin as [-> | Hin]; [done |].
        destruct (Hother g Hne) as [Hts1 _].
        eapply Hevict; [by rewrite Hts1 | done | done].
    + intros g Hfresh.
      destruct (decide (g = k)) as [-> | Hne].
      * assert (self1 = self) as Hself1.
        { unfold self1. rewrite (Hfresh ts x Hts); [done | by left]. }
        destruct (Hkeep k) as [-> ->]; [| by rewrite Hself1].
        intros ts' x' _ Hin. done.
      * destruct (Hother g Hne) as [Hts1 Hnested1].
        destruct (Hkeep g) as [-> ->]; [| done].
        intros ts' x' Hts' Hin. rewrite Hts1 in Hts'.
        apply (Hfresh ts' x' Hts'). by right.
Qed.

(** The sweep on a handler whose stores agree: it returns, touches no
    dict object and no threshold, removes every stale entry from both
    stores and keeps every other entry in both. *)
Lemma sweep_spec (now : GroupVariation -> datetime) stale (self : SOEHandler) :
  consistent self ->
  exists self',
    _update_stale_db now stale self = (Ok tt, self') /\
    objects self' = objects self /\
    _stale_if_longer_than_in_sec self' = _stale_if_longer_than_in_sec self /\
    (forall g ts x, _gv_ts_ind_val_dict self !! g = Some (ts, x) ->
       total_seconds_ge (now g) ts stale = true ->
       _gv_ts_ind_val_dict self' !! g = None /\
       _gv_index_value_nested_dict self' !! g = None) /\
    (forall g, (forall ts x, _gv_ts_ind_val_dict self !! g = Some (ts, x) ->
                  total_seconds_ge (now g) ts stale = false) ->
       _gv_ts_ind_val_dict self' !! g = _gv_ts_ind_val_dict self !! g /\
       _gv_index_value_nested_dict self' !! g = _gv_index_value_nested_dict self !! g).
Proof.
  intros (Hkeys & _ & _).
  assert (Hin : forall g, g ∈ (map_to_list (_gv_ts_ind_val_dict self)).*1 <->
                          is_Some (_gv_ts_ind_val_dict self !! g)).
  { intros g. rewrite list_elem_of_fmap. split.
    - intros ([g' v] & -> & Hv). apply elem_of_map_to_list in Hv. by exists v.
    - intros [v Hv]. exists (g, v). split; [done |]. by apply elem_of_map_to_list. }
  destruct (sweep_loop_spec now stale (map_to_list (_gv_ts_ind_val_dict self)).*1 self)
    as (self' & Hrun & Hobj & Hstale & Hevict & Hkeep).
  { apply NoDup_fst_map_to_list. }
  { intros g Hg. apply Hin in Hg. split; [done |]. by apply Hkeys. }
  exists self'. split; [exact Hrun |]. do 2 (split; [done |]). split.
  - intros g ts x Hts Hge. eapply Hevict; [done | | done]. apply Hin. by exists (ts, x).
  - intros g Hfresh. apply Hkeep. intros ts x Hts _. by eapply Hfresh.
Qed.

(** After the sweep an entry is gone from both stores or kept in both. *)
Lemma sweep_cases (now : GroupVariation -> datetime) stale (self : SOEHandler) :
  consistent self ->
  forall g,
    let self' := (_update_stale_db now stale self).2 in
    (_gv_ts_ind_val_dict self' !! g = None /\
     _gv_index_value_nested_dict self' !! g = None) \/
    (_gv_ts_ind_val_dict self' !! g = _gv_ts_ind_val_dict self !! g /\
     _gv_index_value_nested_dict self' !! g = _gv_index_value_nested_dict self !! g).
Proof.
  intros Hcons g.
  destruct (sweep_spec now stale self Hcons) as (self' & -> & _ & _ & Hevict & Hkeep).
  cbn. destruct (_gv_ts_ind_val_dict self !! g) as [[ts x] |] eqn:Hts.
  - destruct (total_seconds_ge (now g) ts stale) eqn:Hge.
    + left. by eapply Hevict.
    + right. rewrite <- Hts. apply Hkeep. intros ts' x'. rewrite Hts.
      by intros [= <- <-].
  - right. rewrite <- Hts. apply Hkeep. intros ts' x'. by rewrite Hts.
Qed.

Lemma sweep_consistent (now : GroupVariation -> datetime) stale (self : SOEHandler) :
  consistent self -> consistent (_update_stale_db now stale self).2.
Proof.
  intros Hcons. pose proof (sweep_cases now stale self Hcons) as Hcases.
  destruct (sweep_spec now stale self Hcons) as (self' & Hrun & Hobj & _).
  rewrite Hrun in *. cbn in *. destruct Hcons as (Hkeys & Hsame & Halloc).
  split; [| split].
  - intros g. destruct (Hcases g) as [[-> ->] | [-> ->]]; [done | apply Hkeys].
  - intros g ts x. destruct (Hcases g) as [[-> ->] | [-> ->]]; [done | apply Hsame].
  - intros g r. rewrite Hobj.
    destruct (Hcases g) as [[_ ->] | [_ ->]]; [done | apply Halloc].
Qed.

(** A read of [gv_ts_ind_val_dict]: the sweep under the handler's
    threshold, then the dict. *)
Lemma read_spec (now : GroupVariation -> datetime) (self : SOEHandler) :
  consistent self ->
  gv_ts_ind_val_dict now self =
    (Ok (_gv_ts_ind_val_dict
           (_update_stale_db now (_stale_if_longer_than_in_sec self) self).2),
     (_update_stale_db now (_stale_if_longer_than_in_sec self) self).2).
Proof.
  intros Hcons.
  destruct (sweep_spec now (_stale_if_longer_than_in_sec self) self Hcons)
    as (self' & Hrun & _).
  unfold gv_ts_ind_val_dict, bind, get. by rewrite Hrun.
Qed.

Lemma exec_consistent (c : call) (self : SOEHandler) :
  consistent self -> consistent (exec c self).
Proof.
  intros Hcons. destruct c as [now info values | now g batch | now stale | | now]; cbn [exec].
  - unfold Process. destruct (visitor_class_types (type_of values)); [| done].
    by apply post_process_consistent.
  - by apply post_process_consistent.
  - by apply sweep_consistent.
  - done.
  - rewrite read_spec by done. by apply sweep_consistent.
Qed.

Lemma exec_threshold (c : call) (self : SOEHandler) :
  consistent self ->
  _stale_if_longer_than_in_sec (exec c self) = _stale_if_longer_than_in_sec self.
Proof.
  intros Hcons. destruct c as [now info values | now g batch | now stale | | now]; cbn [exec].
  - unfold Process. destruct (visitor_class_types (type_of values)); [| done].
    by destruct (master_post_process_spec now (gv info) (Foreach values v) self)
      as (r & _ & _ & _ & Hstale).
  - by destruct (master_post_process_spec now g batch self) as (r & _ & _ & _ & Hstale).
  - by destruct (sweep_spec now stale self Hcons) as (self' & -> & _ & Hstale & _).
  - done.
  - rewrite read_spec by done.
    by destruct (sweep_spec now (_stale_if_longer_than_in_sec self) self Hcons)
      as (self' & -> & _ & Hstale & _).
Qed.

(** Every handler that calls can produce has agreeing stores and the
    threshold of ten seconds. *)
Lemma run_consistent (calls : list call) :
  consistent (run calls) /\ _stale_if_longer_than_in_sec (run calls) = 10.
Proof.
  unfold run. induction calls as [| c calls IH] using rev_ind.
  - split; [apply init_consistent | done].
  - rewrite fold_left_app. cbn. destruct IH as [Hcons Hstale]. split.
    + by apply exec_consistent.
    + by rewrite exec_threshold.
Qed.

End MasterStaging.

(** ** Reading the staged entries: [master_utils] sweeps, [station_utils] does not *)
Section Staleness.

Lemma master_read_after_observe (now : GroupVariation -> datetime) (T : datetime)
    (G : GroupVariation) (batch : list (Z * PyVal)) (self0 : master_utils.SOEHandler) :
  master_utils.consistent self0 ->
  let self1 := master_utils._post_process T G batch self0 in
  let stale := master_utils._stale_if_longer_than_in_sec self0 in
  let merged := dict_update (default ∅ (master_utils.staged self0 G)) (dict batch) in
  exists self2,
    master_utils.gv_ts_ind_val_dict now self1 =
      (Ok (master_utils._gv_ts_ind_val_dict self2), self2) /\
    (total_seconds_ge (now G) T stale = true ->
       master_utils._gv_ts_ind_val_dict self2 !! G = None /\
       master_utils._gv_index_value_nested_dict self2 !! G = None) /\
    (total_seconds_ge (now G) T stale = false ->
       master_utils.entry self2 (master_utils._gv_ts_ind_val_dict self2) G =
         Some (T, Some merged) /\
       master_utils.staged self2 G = Some merged).
Proof.
  intros Hcons. cbn zeta.
  pose proof (post_process_consistent T G batch self0 Hcons) as Hcons1.
  destruct (master_post_process_spec T G batch self0)
    as (r & Hobj & Hnested & Hts & Hstale).
  rewrite (read_spec now _ Hcons1), Hstale.
  destruct (sweep_spec now (master_utils._stale_if_longer_than_in_sec self0) _ Hcons1)
    as (self2 & Hrun & Hobj2 & _ & Hevict & Hkeep).
  rewrite Hrun. cbn [snd]. exists self2. split; [done |].
  assert (Hts1 : master_utils._gv_ts_ind_val_dict
                   (master_utils._post_process T G batch self0) !! G
                 = Some (T, Some r)) by (by rewrite Hts, lookup_insert_eq).
  split.
  - intros Hge. by eapply Hevict.
  - intros Hge. destruct (Hkeep G) as [Hts2 Hnested2].
    { intros ts x. rewrite Hts1. by intros [= <- <-]. }
    unfold master_utils.entry, master_utils.staged.
    rewrite Hts2, Hnested2, Hts1, Hnested, lookup_insert_eq. cbn.
    by rewrite Hobj2, Hobj, lookup_insert_eq.
Qed.

(** A read of [station_utils.SOEHandler.gv_ts_ind_val_dict] hands out
    the dict and changes nothing, whatever the time. *)
Lemma station_read_spec (self : station_utils.SOEHandler) :
  station_utils.gv_ts_ind_val_dict self =
    (Ok (station_utils._gv_ts_ind_val_dict self), self).
Proof. reflexivity. Qed.

(** C2, as the code has it.  In [master_utils.SOEHandler], whose
    threshold is ten seconds: after an observation of [G] at time [T] on
    any handler that calls can produce, a read whose clock reading for [G]
    is [T + 11 s] sweeps first and returns a dict without an entry for [G]
    (the merged-value store drops it too), while a read at [T + 5 s]
    returns the entry: the time stamp [T] and the merged index-to-value
    dict.  In [station_utils.SOEHandler] there is no threshold and no
    sweep: a read returns the entry of [G] whenever it happens. *)
Theorem read_evicts_stale_in_master_only (calls : list master_utils.call)
    (T T' : datetime) (G : GroupVariation) (batch : list (Z * PyVal))
    (now : GroupVariation -> datetime) (station : station_utils.SOEHandler) :
  let self0 := master_utils.run calls in
  let self1 := master_utils._post_process T G batch self0 in
  let merged := dict_update (default ∅ (master_utils.staged self0 G)) (dict batch) in
  let station1 := station_utils._post_process T T' G batch station in
  (now G = T + 11 * 1000000 ->
   exists self2,
     master_utils.gv_ts_ind_val_dict now self1 =
       (Ok (master_utils._gv_ts_ind_val_dict self2), self2) /\
     master_utils._gv_ts_ind_val_dict self2 !! G = None /\
     master_utils.entry self2 (master_utils._gv_ts_ind_val_dict self2) G = None /\
     master_utils.staged self2 G = None) /\
  (now G = T + 5 * 1000000 ->
   exists self2,
     master_utils.gv_ts_ind_val_dict now self1 =
       (Ok (master_utils._gv_ts_ind_val_dict self2), self2) /\
     master_utils.entry self2 (master_utils._gv_ts_ind_val_dict self2) G =
       Some (T, Some merged)) /\
  station_utils.gv_ts_ind_val_dict station1 =
    (Ok (station_utils._gv_ts_ind_val_dict station1), station1) /\
  station_utils.entry station1 (station_utils._gv_ts_ind_val_dict station1) G =
    Some (T, Some (dict_update (default ∅ (station_utils.staged station G))
                               (dict batch))).
Proof.
  cbn zeta. destruct (run_consistent calls) as [Hcons Hstale].
  destruct (master_read_after_observe now T G batch _ Hcons)
    as (self2 & Hread & Hevict & Hkeep).
  rewrite Hstale in Hevict, Hkeep.
  split; [| split; [| split]].
  - intros Hnow. exists self2. split; [exact Hread |].
    destruct Hevict as [Hts Hnested].
    { unfold total_seconds_ge. apply Z.leb_le. lia. }
    unfold master_utils.entry, master_utils.staged. by rewrite Hts, Hnested.
  - intros Hnow. exists self2. split; [exact Hread |].
    apply Hkeep. unfold total_seconds_ge. apply Z.leb_gt. lia.
  - apply station_read_spec.
  - destruct (post_process_staged T T' G batch station) as (r & _ & Hobj & Hts & _).
    unfold station_utils.entry. rewrite Hts. cbn. by rewrite Hobj.
Qed.

Lemma read_evicts_stale_in_master_only_witness :
  let self1 := master_utils._post_process 0 Group30Var1 [(1, PyFloat 10%float)]
                 (master_utils.run []) in
  (exists self2,
     master_utils.gv_ts_ind_val_dict (fun _ => 11000000) self1 =
       (Ok (master_utils._gv_ts_ind_val_dict self2), self2) /\
     master_utils._gv_ts_ind_val_dict self2 !! Group30Var1 = None /\
     master_utils.entry self2 (master_utils._gv_ts_ind_val_dict self2) Group30Var1
       = None /\
     master_utils.staged self2 Group30Var1 = None) /\
  (exists self2,
     master_utils.gv_ts_ind_val_dict (fun _ => 5000000) self1 =
       (Ok (master_utils._gv_ts_ind_val_dict self2), self2) /\
     master_utils.entry self2 (master_utils._gv_ts_ind_val_dict self2) Group30Var1 =
       Some (0, Some (dict [(1, PyFloat 10%float)]))).
Proof.
  split.
  - exact (proj1 (read_evicts_stale_in_master_only [] 0 0 Group30Var1
                    [(1, PyFloat 10%float)] (fun _ => 11000000)
                    station_utils.__init__) eq_refl).
  - exact (proj1 (proj2 (read_evicts_stale_in_master_only [] 0 0 Group30Var1
                    [(1, PyFloat 10%float)] (fun _ => 5000000)
                    station_utils.__init__)) eq_refl).
Defined.

(** C2, as stated, fails on [station_utils.SOEHandler]: an entry staged
    at time 0 is returned by every later read, one at 11 s included; the
    read does not look at the clock. *)
Lemma station_read_keeps_stale_entry :
  let self1 := station_utils._post_process 0 0 Group30Var1 [(1, PyFloat 10%float)]
                 station_utils.__init__ in
  station_utils.gv_ts_ind_val_dict self1 =
    (Ok (station_utils._gv_ts_ind_val_dict self1), self1) /\
  station_utils.entry self1 (station_utils._gv_ts_ind_val_dict self1) Group30Var1 =
    Some (0, Some (dict [(1, PyFloat 10%float)])).
Proof. split; reflexivity. Qed.

End Staleness.

(** ** The two stores of [master_utils.SOEHandler] *)
Section StoresAgree.
Import master_utils.

(** C10. Whatever calls were made on a handler ([Process],
    [_post_process], the sweep, reads of either property), the
    time-stamped store and the merged-value store have the same keys, and
    under each key the tuple of the first holds the very dict the second
    holds, so the index-to-value maps a client reads from the two are
    equal. *)
Theorem stores_agree (calls : list call) :
  let self := run calls in
  dom (_gv_ts_ind_val_dict self) = dom (_gv_index_value_nested_dict self) /\
  (forall g, g ∈ dom (_gv_ts_ind_val_dict self) ->
     exists ts r m,
       _gv_ts_ind_val_dict self !! g = Some (ts, Some r) /\
       _gv_index_value_nested_dict self !! g = Some r /\
       entry self (_gv_ts_ind_val_dict self) g = Some (ts, Some m) /\
       staged self g = Some m).
Proof.
  cbn zeta. destruct (run_consistent calls) as [(Hkeys & Hsame & Halloc) _]. split.
  - apply set_eq. intros g. rewrite !elem_of_dom. apply Hkeys.
  - intros g Hg. apply elem_of_dom in Hg as [[ts x] Hts].
    pose proof (Hsame g ts x Hts) as ->.
    destruct (proj1 (Hkeys g)) as [r Hr]; [by eexists |].
    destruct (Halloc g r Hr) as [m Hm].
    exists ts, r, m. rewrite Hr in Hts.
    unfold entry, staged. rewrite Hts, Hr. cbn. by rewrite Hm.
Qed.

Lemma stores_agree_witness :
  let self := run [call__post_process 0 Group30Var1 [(1, PyFloat 10%float)];
                   call__post_process 9000000 Group40Var1 [(0, PyInt 7)];
                   call_gv_ts_ind_val_dict (fun _ => 12000000)] in
  Group40Var1 ∈ dom (_gv_ts_ind_val_dict self) /\
  exists ts r m,
    _gv_ts_ind_val_dict self !! Group40Var1 = Some (ts, Some r) /\
    _gv_index_value_nested_dict self !! Group40Var1 = Some r /\
    entry self (_gv_ts_ind_val_dict self) Group40Var1 = Some (ts, Some m) /\
    staged self Group40Var1 = Some m.
Proof.
  intros self.
  assert (Hin : Group40Var1 ∈ dom (_gv_ts_ind_val_dict self)) by by_evaluation.
  split; [exact Hin |].
  exact (proj2 (stores_agree _) Group40Var1 Hin).
Defined.

End StoresAgree.

(** ** The command handler and the registry of [outstation_new] *)
Section Outstation.
Import outstation_new.
Context {Engine : Type}.
Variable engine_configure : ref -> Engine -> result unit * Engine.
Variable engine_open : ref -> string -> Z -> Engine -> result unit * Engine.
Variable engine_finish : ref -> Engine -> result unit * Engine.
Variable engine_update : ref -> obj -> Z -> Engine -> result unit * Engine.
Variable engine_shutdown : ref -> Engine -> result unit * Engine.
Implicit Types (w : World Engine) (handler : MyOutstationCommandHandler).

(** The handler wraps the processing of a request: a return becomes
    [SUCCESS], an exception is logged and raised again. *)
Lemma handle_spec handler (request : ControlRequest) w :
  handle engine_update handler request w =
    match processing engine_update
            (outstation_application_pool w !! outstation_id handler) request w with
    | (Ok _, w') => (Ok SUCCESS, w')
    | (Raise e, w') => (Raise e, _log_error e w')
    end.
Proof.
  destruct request as [command index | command index op_type]; cbn;
    unfold Select, Operate, bind, get, try_except, ret, modify, raise;
    by destruct (call_process_point_value _ _ _ _ _ _ w) as [[[] | e] w'].
Qed.

(** A command that does not translate stops the processing before the
    engine is asked anything. *)
Lemma processing_untranslatable (app : ref) (request : ControlRequest) w e :
  station_utils.master_to_outstation_command_parser (request_command request) = Raise e ->
  processing engine_update (Some app) request w = (Raise e, w).
Proof.
  intros Hparse.
  destruct request as [command index | command index op_type]; cbn in *;
    unfold process_point_value, bind, lift; by rewrite Hparse.
Qed.

(** [process_point_value] writes neither to the pool nor to the log. *)
Lemma process_point_value_keeps (self : ref) (command_type : string) (command : obj)
    (index : Z) (op_type : option OperateType) w :
  let w' := (process_point_value engine_update self command_type command index op_type w).2 in
  outstation_application_pool w' = outstation_application_pool w /\
  logged w' = logged w.
Proof.
  cbn zeta. unfold process_point_value, bind, lift.
  by destruct (station_utils.master_to_outstation_command_parser command).
Qed.

Lemma processing_keeps (outstation_app : option ref) (request : ControlRequest) w :
  let w' := (processing engine_update outstation_app request w).2 in
  outstation_application_pool w' = outstation_application_pool w /\
  logged w' = logged w.
Proof.
  destruct outstation_app as [app |], request as [command index | command index op_type];
    try done; apply process_point_value_keeps.
Qed.

(** C6. For every Select or Operate request the handler returns
    [SUCCESS] exactly when the pool holds the handler's outstation and its
    [process_point_value] (translation, then the update of the engine)
    returns, and then the log is as it was.  When that call raises, the
    handler raises the same exception, and the log is the log from before
    the request with one record more, the error record of that
    exception; the pool is unchanged.  So a command that does not
    translate makes the handler raise: the translator's error for a
    registered outstation, appended to the log, with the engine and the
    pool untouched. *)
Theorem handler_success_iff_processed handler (request : ControlRequest) w :
  let outstation_app := outstation_application_pool w !! outstation_id handler in
  (forall status w',
     handle engine_update handler request w = (Ok status, w') <->
     status = SUCCESS /\
     exists app, outstation_app = Some app /\
       processing engine_update (Some app) request w = (Ok tt, w')) /\
  (forall status w',
     handle engine_update handler request w = (Ok status, w') ->
     logged w' = logged w) /\
  (forall e w',
     processing engine_update outstation_app request w = (Raise e, w') ->
     handle engine_update handler request w =
       (Raise e,
        {| outstation_application_pool := outstation_application_pool w;
           logged := logged w ++ [ERROR e];
           engine := engine w' |})) /\
  (forall e,
     station_utils.master_to_outstation_command_parser (request_command request)
       = Raise e ->
     exists e',
       handle engine_update handler request w =
         (Raise e',
          {| outstation_application_pool := outstation_application_pool w;
             logged := logged w ++ [ERROR e'];
             engine := engine w |}) /\
       (forall app, outstation_app = Some app -> e' = e)).
Proof.
  cbn zeta. rewrite handle_spec.
  pose proof (processing_keeps
                (outstation_application_pool w !! outstation_id handler) request w)
    as [Hpool Hlog].
  split; [| split; [| split]].
  - intros [] w'. split.
    + destruct (outstation_application_pool w !! outstation_id handler) as [app |] eqn:Happ.
      * destruct (processing _ _ _ _) as [[[] | e] w''] eqn:Hproc; [| done].
        intros [= <-]. eauto.
      * by destruct request.
    + intros (_ & app & -> & ->). done.
  - intros status w'.
    destruct (processing _ _ _ _) as [[[] | e] w''] eqn:Hproc; [| done].
    intros [= <-]. exact Hlog.
  - intros e w' Hproc. rewrite Hproc in *. cbn in Hpool, Hlog.
    unfold _log_error. by rewrite Hpool, Hlog.
  - intros e Hparse.
    destruct (outstation_application_pool w !! outstation_id handler) as [app |].
    + rewrite (processing_untranslatable _ _ _ _ Hparse). exists e. by split.
    + exists (AttributeError_None "process_point_value"). by destruct request.
Qed.

(** [__init__], step by step: the configuration, the port, the channel
    and the outstation, the registration, the rest. *)
Lemma init_spec (self : ref) (outstation_ip_str : string) (port : Z) w :
  __init__ engine_configure engine_open engine_finish self outstation_ip_str port w =
    match engine_configure self (engine w) with
    | (Raise e, configured) => (Raise e, set_engine Engine configured w)
    | (Ok _, configured) =>
        if bool_decide (0 <= port <= 65535) then
          match engine_open self outstation_ip_str port configured with
          | (Raise e, opened) => (Raise e, set_engine Engine opened w)
          | (Ok _, opened) =>
              let outstation_id := outstation_ip_str +:+ "-" +:+ str port in
              let registered :=
                {| outstation_application_pool :=
                     <[outstation_id := self]> (outstation_application_pool w);
                   logged := logged w;
                   engine := (engine_finish self opened).2 |} in
              match (engine_finish self opened).1 with
              | Ok _ => (Ok {| outstation_id := outstation_id |}, registered)
              | Raise e => (Raise e, registered)
              end
          end
        else (Raise TypeError_arguments, set_engine Engine configured w)
    end.
Proof.
  unfold __init__, bind, on_engine, add_outstation_app, modify, ret, raise, post_init.
  cbn. destruct (engine_configure self (engine w)) as [[[] | e] configured]; cbn; [| done].
  case_bool_decide; cbn; [| done].
  destruct (engine_open self outstation_ip_str port configured) as [[[] | e] opened];
    cbn; [| done].
  by destruct (engine_finish self opened) as [[[] | e] finished].
Qed.

(** What a call does to the pool: [__init__] and [add_outstation_app]
    store an instance under an id, the one [registers] gives, or leave
    the pool as it is; no call removes or changes any other entry. *)
Lemma exec_pool (c : call) w :
  let w' := exec engine_configure engine_open engine_finish engine_update
              engine_shutdown c w in
  outstation_application_pool w' = outstation_application_pool w \/
  exists outstation_id outstation_app,
    registers c = Some outstation_id /\
    outstation_application_pool w' =
      <[outstation_id := outstation_app]> (outstation_application_pool w).
Proof.
  cbn zeta.
  destruct c as [self ip port | id app | id | self | self measurement index
                | self command_type command index op_type
                | handler command index | handler command index op_type];
    cbn [exec]; try (by left).
  - rewrite init_spec.
    destruct (engine_configure self (engine w)) as [[[] | e] configured]; [| by left].
    case_bool_decide; [| by left].
    destruct (engine_open self ip port configured) as [[[] | e] opened]; [| by left].
    right. exists (ip +:+ "-" +:+ str port), self. split; [done |].
    by destruct (engine_finish self opened).1.
  - right. by exists id, app.
  - left. apply process_point_value_keeps.
  - left. pose proof (handle_spec handler (SelectRequest command index) w) as Hhandle.
    cbn [handle] in Hhandle. rewrite Hhandle.
    pose proof (processing_keeps (outstation_application_pool w !! outstation_id handler)
                  (SelectRequest command index) w) as [Hpool _].
    by destruct (processing _ _ _ _) as [[[] | e] w'].
  - left. pose proof (handle_spec handler (OperateRequest command index op_type) w)
      as Hhandle.
    cbn [handle] in Hhandle. rewrite Hhandle.
    pose proof (processing_keeps (outstation_application_pool w !! outstation_id handler)
                  (OperateRequest command index op_type) w) as [Hpool _].
    by destruct (processing _ _ _ _) as [[[] | e] w'].
Qed.

Lemma run_cons (c : call) (calls : list call) w :
  run engine_configure engine_open engine_finish engine_update engine_shutdown
      (c :: calls) w =
    run engine_configure engine_open engine_finish engine_update engine_shutdown calls
      (exec engine_configure engine_open engine_finish engine_update engine_shutdown c w).
Proof. reflexivity. Qed.

(** Calls that register nothing under an id leave its entry as it is. *)
Lemma run_pool_other (outstation_id : string) (calls : list call) w :
  Forall (fun c => registers c <> Some outstation_id) calls ->
  outstation_application_pool
      (run engine_configure engine_open engine_finish engine_update engine_shutdown
         calls w) !! outstation_id
    = outstation_application_pool w !! outstation_id.
Proof.
  revert w. induction calls as [| c calls IH]; intros w Hcalls; [done |].
  apply Forall_cons in Hcalls as [Hc Hcalls]. rewrite run_cons, IH by done.
  destruct (exec_pool c w) as [-> | (id & app & Hid & ->)]; [done |].
  rewrite lookup_insert_ne; [done | congruence].
Qed.

(** No call removes an entry. *)
Lemma run_pool_stays (outstation_id : string) (calls : list call) w :
  is_Some (outstation_application_pool w !! outstation_id) ->
  is_Some (outstation_application_pool
             (run engine_configure engine_open engine_finish engine_update
                engine_shutdown calls w) !! outstation_id).
Proof.
  revert w. induction calls as [| c calls IH]; intros w Hw; [done |].
  rewrite run_cons. apply IH.
  destruct (exec_pool c w) as [-> | (id & app & Hid & ->)]; [done |].
  rewrite lookup_insert. by case_decide.
Qed.

(** C7, as the code has it.  A lookup never raises and returns what the
    pool holds under the id: nothing ([None]) for an id that no call
    registered, and exactly the registered instance after
    [add_outstation_app].  There is no call that unregisters: an entry
    stays in the pool through every later call, [shutdown] included, and
    keeps its instance until the same id is registered again. *)
Theorem registry_lookup (outstation_id : string) (outstation_app : ref)
    (calls : list call) (e : Engine) w :
  let w1 := (add_outstation_app outstation_id outstation_app w).2 in
  let never := run engine_configure engine_open engine_finish engine_update
                 engine_shutdown calls (start e) in
  let later := run engine_configure engine_open engine_finish engine_update
                 engine_shutdown calls w1 in
  (Forall (fun c => registers c <> Some outstation_id) calls ->
   get_outstation_app outstation_id never = (Ok None, never)) /\
  get_outstation_app outstation_id w1 = (Ok (Some outstation_app), w1) /\
  (Forall (fun c => registers c <> Some outstation_id) calls ->
   get_outstation_app outstation_id later = (Ok (Some outstation_app), later)) /\
  (exists app, get_outstation_app outstation_id later = (Ok (Some app), later)).
Proof.
  cbn zeta. unfold get_outstation_app, bind, get, ret. split; [| split; [| split]].
  - intros Hcalls. by rewrite run_pool_other.
  - cbn. by rewrite lookup_insert_eq.
  - intros Hcalls. rewrite run_pool_other by done. cbn. by rewrite lookup_insert_eq.
  - destruct (run_pool_stays outstation_id calls
                (add_outstation_app outstation_id outstation_app w).2) as [app Happ].
    { cbn. rewrite lookup_insert_eq. by eexists. }
    exists app. by rewrite Happ.
Qed.

End Outstation.

(** An engine that records the updates it is given and never fails. *)
Section OutstationExamples.
Import outstation_new.

Let recording_configure : ref -> list (obj * Z) -> result unit * list (obj * Z) :=
  fun _ db => (Ok tt, db).
Let recording_open : ref -> string -> Z -> list (obj * Z) -> result unit * list (obj * Z) :=
  fun _ _ _ db => (Ok tt, db).
Let recording_finish : ref -> list (obj * Z) -> result unit * list (obj * Z) :=
  fun _ db => (Ok tt, db).
Let recording_update : ref -> obj -> Z -> list (obj * Z) -> result unit * list (obj * Z) :=
  fun _ measurement index db => (Ok tt, db ++ [(measurement, index)]).
Let recording_shutdown : ref -> list (obj * Z) -> result unit * list (obj * Z) :=
  fun _ db => (Ok tt, db).

Lemma handler_success_iff_processed_witness :
  let handler := {| outstation_id := "127.0.0.1-20000" |} in
  let w := (__init__ recording_configure recording_open recording_finish
              1%positive "127.0.0.1" 20000 (start [])).2 in
  handle recording_update handler (SelectRequest (ControlRelayOutputBlock 3) 0) w =
    (Ok SUCCESS,
     {| outstation_application_pool := outstation_application_pool w;
        logged := [];
        engine := [(BinaryOutputStatus true, 0)] |}) /\
  handle recording_update handler (SelectRequest (ControlRelayOutputBlock 5) 0) w =
    (Raise (ValueError (rawCode_not_valid 5)),
     {| outstation_application_pool := outstation_application_pool w;
        logged := [ERROR (ValueError (rawCode_not_valid 5))];
        engine := [] |}).
Proof.
  intros handler w. split.
  - apply (proj1 (handler_success_iff_processed recording_update handler
                    (SelectRequest (ControlRelayOutputBlock 3) 0) w)).
    split; [reflexivity |]. exists 1%positive. split; reflexivity.
  - apply (proj1 (proj2 (proj2 (handler_success_iff_processed recording_update handler
                    (SelectRequest (ControlRelayOutputBlock 5) 0) w)))
             (ValueError (rawCode_not_valid 5)) w).
    reflexivity.
Defined.

Lemma registry_lookup_witness :
  let w1 := (add_outstation_app "127.0.0.1-20000" 1%positive (start [])).2 in
  let later := run recording_configure recording_open recording_finish
                 recording_update recording_shutdown
                 [call_Select {| outstation_id := "127.0.0.1-20000" |}
                    (ControlRelayOutputBlock 3) 0] w1 in
  get_outstation_app "127.0.0.1-20001" (start ([] : list (obj * Z))) =
    (Ok None, start []) /\
  get_outstation_app "127.0.0.1-20000" later = (Ok (Some 1%positive), later).
Proof.
  intros w1 later. split.
  - apply (proj1 (registry_lookup recording_configure recording_open recording_finish
                    recording_update recording_shutdown
                    "127.0.0.1-20001" 1%positive [] [] (start []))).
    constructor.
  - apply (proj1 (proj2 (proj2 (registry_lookup recording_configure recording_open
                    recording_finish recording_update recording_shutdown
                    "127.0.0.1-20000" 1%positive
                    [call_Select {| outstation_id := "127.0.0.1-20000" |}
                       (ControlRelayOutputBlock 3) 0] [] (start []))))).
    repeat constructor. discriminate.
Defined.

(** C7, as stated, fails where it speaks of unregistering: the module
    has no such call, and after the one that ends an outstation,
    [shutdown], the lookup still returns the instance that was registered
    under ["127.0.0.1-20000"], by [add_outstation_app] or by [__init__]. *)
Lemma shutdown_keeps_registration :
  let registered :=
    run recording_configure recording_open recording_finish
      recording_update recording_shutdown
      [call_add_outstation_app "127.0.0.1-20000" 1%positive; call_shutdown 1%positive]
      (start []) in
  let created :=
    run recording_configure recording_open recording_finish
      recording_update recording_shutdown
      [call___init__ 1%positive "127.0.0.1" 20000; call_shutdown 1%positive]
      (start []) in
  get_outstation_app "127.0.0.1-20000" registered = (Ok (Some 1%positive), registered) /\
  get_outstation_app "127.0.0.1-20000" created = (Ok (Some 1%positive), created).
Proof. split; vm_compute; reflexivity. Qed.

End OutstationExamples.

(** * Further properties *)

(** ** The command translator: domain, errors, composition *)
Section CommandTranslatorMore.
Import station_utils.

Lemma type_numeric_dec (v : PyVal) :
  type v ∈ [float_t; int_t] <-> type v = float_t \/ type v = int_t.
Proof. rewrite !elem_of_cons, elem_of_nil. tauto. Qed.

Lemma variation_in_1_2 (variation : Z) : variation ∈ [1; 2] <-> 1 <= variation <= 2.
Proof. rewrite !elem_of_cons, elem_of_nil. lia. Qed.

(** An [int] becomes a double when it rounds to a finite one. *)
Lemma double_of_int_cases (z : Z) :
  double_of_int z =
    if decide (Z.abs z < 2 ^ 1024 - 2 ^ 970) then Some (nearest_double z) else None.
Proof.
  unfold double_of_int. set (bound := 2 ^ 1024 - 2 ^ 970).
  destruct (decide (Z.abs z < bound)) as [Hz | Hz].
  - by apply Z.ltb_lt in Hz as ->.
  - by apply Z.ltb_nlt in Hz as ->.
Qed.

Lemma int32_within_double : 2147483648 < 2 ^ 1024 - 2 ^ 970.
Proof. vm_compute. reflexivity. Qed.

(** An [int] of a 32-bit field reads back as a double. *)
Lemma double_of_int_int32 (z : Z) :
  -2147483648 <= z <= 2147483647 -> double_of_int z = Some (nearest_double z).
Proof.
  intros Hz. rewrite double_of_int_cases. pose proof int32_within_double as Hbound.
  set (bound := 2 ^ 1024 - 2 ^ 970) in *. rewrite decide_True; [done | lia].
Qed.

(** [parsing_gv_to_mastercmdtype] under group 40, for an [int] and for a
    [float], with every test decided. *)
Lemma parsing_group40_int (variation z : Z) :
  parsing_gv_to_mastercmdtype 40 variation (PyInt z) =
    if decide (variation = 1) then
      if decide (-2147483648 <= z <= 2147483647) then Ok (AnalogOutputInt32 z)
      else Raise TypeError_arguments
    else if decide (variation = 2) then
      if decide (-32768 <= z <= 32767) then Ok (AnalogOutputInt16 z)
      else Raise TypeError_arguments
    else if decide (variation = 3) then
      if decide (Z.abs z < 2 ^ 1024 - 2 ^ 970)
      then Ok (AnalogOutputFloat32 (to_float32 (nearest_double z)))
      else Raise TypeError_arguments
    else if decide (variation = 4) then
      if decide (Z.abs z < 2 ^ 1024 - 2 ^ 970)
      then Ok (AnalogOutputDouble64 (nearest_double z))
      else Raise TypeError_arguments
    else Raise (ValueError (val_to_set_group_invalid (PyInt z) 40)).
Proof.
  rewrite (parsing_group40_numeric _ _ (type_int_numeric z)).
  rewrite !int_field_int. unfold float_field. cbn [double_field assign].
  rewrite double_of_int_cases. set (bound := 2 ^ 1024 - 2 ^ 970).
  destruct (decide (variation = 1)); [by case_decide |].
  destruct (decide (variation = 2)); [by case_decide |].
  destruct (decide (variation = 3)); [by case_decide |].
  destruct (decide (variation = 4)); [by case_decide | done].
Qed.

Lemma parsing_group40_float (variation : Z) (f : float) :
  parsing_gv_to_mastercmdtype 40 variation (PyFloat f) =
    if decide (variation = 1) then Raise TypeError_arguments
    else if decide (variation = 2) then Raise TypeError_arguments
    else if decide (variation = 3) then Ok (AnalogOutputFloat32 (to_float32 f))
    else if decide (variation = 4) then Ok (AnalogOutputDouble64 f)
    else Raise (ValueError (val_to_set_group_invalid (PyFloat f) 40)).
Proof. by rewrite (parsing_group40_numeric _ _ (type_float_numeric f)). Qed.

(** [parsing_gv_to_mastercmdtype] outside group 40. *)
Lemma parsing_group10 (group variation : Z) (v : PyVal) :
  group <> 40 ->
  parsing_gv_to_mastercmdtype group variation v =
    if decide (group = 10 /\ 1 <= variation <= 2) then
      match v with
      | PyBool b => Ok (ControlRelayOutputBlock (if b then 3 else 4))
      | _ => Raise (ValueError (val_to_set_variation_invalid v group variation))
      end
    else Raise (ValueError (val_to_set_group_invalid v group)).
Proof.
  intros Hg. unfold parsing_gv_to_mastercmdtype. rewrite decide_False by done.
  destruct (decide (group = 10 /\ 1 <= variation <= 2)) as [[Hg10 Hvar] | Hno].
  - rewrite (bool_decide_eq_true_2 (group = 10)) by done.
    rewrite (bool_decide_eq_true_2 (variation ∈ [1; 2])) by by apply variation_in_1_2.
    cbn. by destruct v as [| [] | | |].
  - destruct (decide (group = 10)) as [Hg10 | Hg10].
    + rewrite (bool_decide_eq_true_2 (group = 10)) by done.
      rewrite (bool_decide_eq_false_2 (variation ∈ [1; 2])); [done |].
      rewrite variation_in_1_2. tauto.
    + by rewrite (bool_decide_eq_false_2 (group = 10)).
Qed.

(** The inputs of [parsing_gv_to_mastercmdtype], by what decides the
    outcome. *)
Lemma parsing_inputs (group : Z) (v : PyVal) :
  (group = 40 /\ exists z, v = PyInt z) \/
  (group = 40 /\ exists f, v = PyFloat f) \/
  (group = 40 /\ type v ∉ [float_t; int_t]) \/
  group <> 40.
Proof.
  destruct (decide (group = 40)) as [Hg | Hg]; [| tauto].
  destruct (decide (type v ∈ [float_t; int_t])) as [Hty | Hty]; [| tauto].
  destruct (type_numeric_cases _ Hty) as [[f ->] | [z ->]]; eauto 6.
Qed.

(** X1. A command is constructed exactly for these inputs: under group
    40, an [int] within the 32-bit range with variation 1, within the
    16-bit range with variation 2, or one that rounds to a finite double
    with variation 3 or 4, and a [float] with variation 3 or 4; under
    group 10, a [bool] with variation 1 or 2.  Every other input
    raises. *)
Theorem command_construction_domain (group variation : Z) (val_to_set : PyVal) :
  (exists master_cmd,
     parsing_gv_to_mastercmdtype group variation val_to_set = Ok master_cmd) <->
  (group = 40 /\ exists z, val_to_set = PyInt z /\
     ((variation = 1 /\ -2147483648 <= z <= 2147483647) \/
      (variation = 2 /\ -32768 <= z <= 32767) \/
      (3 <= variation <= 4 /\ Z.abs z < 2 ^ 1024 - 2 ^ 970))) \/
  (group = 40 /\ 3 <= variation <= 4 /\ exists f, val_to_set = PyFloat f) \/
  (group = 10 /\ 1 <= variation <= 2 /\ type val_to_set = bool_t).
Proof.
  set (bound := 2 ^ 1024 - 2 ^ 970).
  destruct (parsing_inputs group val_to_set)
    as [(-> & z & ->) | [(-> & f & ->) | [(-> & Hty) | Hg]]].
  - rewrite parsing_group40_int. fold bound. split.
    + intros [master_cmd Hcmd]. left. split; [done |]. exists z. split; [done |].
      repeat case_decide; try discriminate; subst; auto with lia.
    + intros [(_ & z' & [= <-] & Hz) | [(_ & _ & f & [=]) | (Hg & _)]]; [| lia].
      repeat case_decide; eauto; exfalso; lia.
  - rewrite parsing_group40_float. split.
    + intros [master_cmd Hcmd]. right; left. split; [done |]. split; [| eauto].
      repeat case_decide; try discriminate; lia.
    + intros [(_ & z & [=] & _) | [(_ & Hvar & _) | (Hg & _)]]; [| lia].
      repeat case_decide; eauto; exfalso; lia.
  - rewrite parsing_group40_not_numeric by done. split.
    + by intros [master_cmd [=]].
    + intros [(_ & z & -> & _) | [(_ & _ & f & ->) | (Hg & _)]]; [| | lia];
        exfalso; apply Hty; cbn; by_evaluation.
  - rewrite parsing_group10 by done. split.
    + intros [master_cmd Hcmd]. right; right.
      destruct (decide (group = 10 /\ 1 <= variation <= 2)) as [[Hg10 Hvar] |];
        [| discriminate].
      by destruct val_to_set.
    + intros [(Hg40 & _) | [(Hg40 & _) | (Hg10 & Hvar & Hty)]]; [done | done |].
      rewrite decide_True by done. destruct val_to_set; try discriminate. eauto.
Qed.

(** X2. The error tells what was wrong, and the value is tested before
    the variation.  The invalid-value [ValueError] is raised exactly
    under group 40 for a value that is not a [float] nor an [int],
    whatever the variation, and under group 10 with variation 1 or 2 for
    a value that is not a [bool].  The unsupported [ValueError] is raised
    exactly under group 40 for a number with a variation outside 1 to 4,
    under group 10 with another variation, and under every other group.
    The [TypeError] of the bindings is raised exactly under group 40 for
    a number that the typed field of the variation refuses: a [float]
    with variation 1 or 2, an [int] outside the 32-bit range with
    variation 1 or outside the 16-bit range with variation 2, and an
    [int] too large for a double with variation 3 or 4.  Nothing else is
    raised. *)
Theorem command_construction_errors (group variation : Z) (val_to_set : PyVal)
    (e : Exception) :
  parsing_gv_to_mastercmdtype group variation val_to_set = Raise e <->
  (e = ValueError (val_to_set_variation_invalid val_to_set group variation) /\
   ((group = 40 /\ type val_to_set ∉ [float_t; int_t]) \/
    (group = 10 /\ 1 <= variation <= 2 /\ type val_to_set <> bool_t))) \/
  (e = ValueError (val_to_set_group_invalid val_to_set group) /\
   ((group = 40 /\ type val_to_set ∈ [float_t; int_t] /\ ~ 1 <= variation <= 4) \/
    (group = 10 /\ ~ 1 <= variation <= 2) \/
    (group <> 40 /\ group <> 10))) \/
  (e = TypeError_arguments /\ group = 40 /\
   ((1 <= variation <= 2 /\ exists f, val_to_set = PyFloat f) \/
    (exists z, val_to_set = PyInt z /\
       ((variation = 1 /\ ~ -2147483648 <= z <= 2147483647) \/
        (variation = 2 /\ ~ -32768 <= z <= 32767) \/
        (3 <= variation <= 4 /\ 2 ^ 1024 - 2 ^ 970 <= Z.abs z))))).
Proof.
  set (bound := 2 ^ 1024 - 2 ^ 970).
  destruct (parsing_inputs group val_to_set)
    as [(-> & z & ->) | [(-> & f & ->) | [(-> & Hty) | Hg]]].
  - pose proof (type_int_numeric z) as Hty.
    rewrite parsing_group40_int. fold bound. split.
    + intros He. repeat case_decide; try discriminate; injection He as <-.
      * right; right. split; [done |]. split; [done |]. right. exists z. auto.
      * right; right. split; [done |]. split; [done |]. right. exists z. auto.
      * right; right. split; [done |]. split; [done |]. right. exists z.
        split; [done |]. right; right. lia.
      * right; right. split; [done |]. split; [done |]. right. exists z.
        split; [done |]. right; right. lia.
      * right; left. split; [done |]. left. split; [done |]. split; [done | lia].
    + intros [([= ->] & [(_ & Hno) | (Hg & _)]) |
              [(-> & [(_ & _ & Hvar) | [(Hg & _) | (Hg & _)]]) |
               (-> & _ & [(_ & f & [=]) | (z' & [= <-] & Hz)])]];
        try done.
      * repeat case_decide; try reflexivity; exfalso; lia.
      * repeat case_decide; try reflexivity; exfalso; lia.
  - pose proof (type_float_numeric f) as Hty.
    rewrite parsing_group40_float. split.
    + intros He. repeat case_decide; try discriminate; injection He as <-.
      * right; right. split; [done |]. split; [done |]. left. split; [lia | eauto].
      * right; right. split; [done |]. split; [done |]. left. split; [lia | eauto].
      * right; left. split; [done |]. left. split; [done |]. split; [done | lia].
    + intros [([= ->] & [(_ & Hno) | (Hg & _)]) |
              [(-> & [(_ & _ & Hvar) | [(Hg & _) | (Hg & _)]]) |
               (-> & _ & [(Hvar & _) | (z & [=] & _)])]];
        try done.
      * repeat case_decide; try reflexivity; exfalso; lia.
      * repeat case_decide; try reflexivity; exfalso; lia.
  - rewrite parsing_group40_not_numeric by done. split.
    + intros [= <-]. left. split; [done |]. by left.
    + intros [(-> & _) | [(_ & [(_ & Hin & _) | [(Hg & _) | (Hg & _)]]) |
               (_ & _ & [(_ & f & ->) | (z & -> & _)])]];
        try done; exfalso; apply Hty; cbn; by_evaluation.
  - rewrite parsing_group10 by done. split.
    + destruct (decide (group = 10 /\ 1 <= variation <= 2)) as [[Hg10 Hvar] | Hno].
      * destruct val_to_set; try discriminate; intros [= <-]; left;
          (split; [done |]); right; (split; [done | split; [done | discriminate]]).
      * intros [= <-]. right; left. split; [done |].
        destruct (decide (group = 10)); [right; left | right; right]; tauto.
    + intros [(-> & [(Hg40 & _) | (Hg10 & Hvar & Hty)]) |
              [(-> & [(Hg40 & _) | [(Hg10 & Hvar) | (_ & Hg10)]]) |
               (_ & Hg40 & _)]];
        try done.
      * rewrite decide_True by done. by destruct val_to_set.
      * rewrite decide_False; [done | tauto].
      * rewrite decide_False; [done | tauto].
Qed.

Lemma command_construction_errors_witness :
  parsing_gv_to_mastercmdtype 40 7 (PyStr "x") =
    Raise (ValueError (val_to_set_variation_invalid (PyStr "x") 40 7)) /\
  parsing_gv_to_mastercmdtype 40 7 (PyInt 1) =
    Raise (ValueError (val_to_set_group_invalid (PyInt 1) 40)) /\
  parsing_gv_to_mastercmdtype 10 2 (PyInt 1) =
    Raise (ValueError (val_to_set_variation_invalid (PyInt 1) 10 2)) /\
  parsing_gv_to_mastercmdtype 40 1 (PyFloat 3.14%float) = Raise TypeError_arguments /\
  parsing_gv_to_mastercmdtype 40 2 (PyInt 70000) = Raise TypeError_arguments.
Proof.
  split; [reflexivity |]. split; [reflexivity |]. split; [reflexivity |]. split.
  - apply (proj2 (command_construction_errors 40 1 (PyFloat 3.14%float)
                    TypeError_arguments)).
    right; right. split; [reflexivity |]. split; [reflexivity |]. left.
    split; [lia |]. by eexists.
  - apply (proj2 (command_construction_errors 40 2 (PyInt 70000) TypeError_arguments)).
    right; right. split; [reflexivity |]. split; [reflexivity |]. right.
    exists 70000. split; [reflexivity |]. right; left. split; [reflexivity | lia].
Defined.

(** X3. Every command that [parsing_gv_to_mastercmdtype] constructs
    translates.  An analog output of group 40 becomes an analog output
    status, whose value is a double: the double nearest to the [int] that
    was supplied under variation 1, 2 or 4, the [float] that was supplied
    under variation 4, and under variation 3 that number rounded to single
    precision.  A relay block of group 10 becomes a binary output status
    holding the boolean that was supplied. *)
Theorem constructed_command_translates (group variation : Z) (val_to_set : PyVal)
    (master_cmd : obj) :
  parsing_gv_to_mastercmdtype group variation val_to_set = Ok master_cmd ->
  (group = 40 /\ exists value,
     master_to_outstation_command_parser master_cmd = Ok (AnalogOutputStatus value) /\
     ((exists z, val_to_set = PyInt z /\
         ((variation ∈ [1; 2; 4] /\ value = nearest_double z) \/
          (variation = 3 /\ value = to_float32 (nearest_double z)))) \/
      (exists f, val_to_set = PyFloat f /\
         ((variation = 4 /\ value = f) \/
          (variation = 3 /\ value = to_float32 f))))) \/
  (group = 10 /\ exists b, val_to_set = PyBool b /\
   master_to_outstation_command_parser master_cmd = Ok (BinaryOutputStatus b)).
Proof.
  destruct (parsing_inputs group val_to_set)
    as [(-> & z & ->) | [(-> & f & ->) | [(-> & Hty) | Hg]]].
  - rewrite parsing_group40_int. intros Hcmd. left. split; [done |].
    destruct (decide (variation = 1)) as [-> | H1].
    { destruct (decide (-2147483648 <= z <= 2147483647)) as [Hz |]; [| discriminate].
      injection Hcmd as <-. exists (nearest_double z). split.
      - cbn. by rewrite double_of_int_int32.
      - left. exists z. split; [done |]. left. split; [by_evaluation | done]. }
    destruct (decide (variation = 2)) as [-> | H2].
    { destruct (decide (-32768 <= z <= 32767)) as [Hz |]; [| discriminate].
      injection Hcmd as <-. exists (nearest_double z). split.
      - cbn. rewrite double_of_int_int32; [done | lia].
      - left. exists z. split; [done |]. left. split; [by_evaluation | done]. }
    destruct (decide (variation = 3)) as [-> | H3].
    { case_decide; [| discriminate]. injection Hcmd as <-.
      exists (to_float32 (nearest_double z)). split; [done |].
      left. exists z. split; [done |]. by right. }
    destruct (decide (variation = 4)) as [-> | H4]; [| discriminate].
    case_decide; [| discriminate]. injection Hcmd as <-.
    exists (nearest_double z). split; [done |].
    left. exists z. split; [done |]. left. split; [by_evaluation | done].
  - rewrite parsing_group40_float. intros Hcmd. left. split; [done |].
    destruct (decide (variation = 1)); [discriminate |].
    destruct (decide (variation = 2)); [discriminate |].
    destruct (decide (variation = 3)) as [-> | H3].
    { injection Hcmd as <-. exists (to_float32 f). split; [done |].
      right. exists f. split; [done |]. by right. }
    destruct (decide (variation = 4)) as [-> | H4]; [| discriminate].
    injection Hcmd as <-. exists f. split; [done |].
    right. exists f. split; [done |]. by left.
  - by rewrite parsing_group40_not_numeric.
  - rewrite parsing_group10 by done.
    destruct (decide (group = 10 /\ 1 <= variation <= 2)) as [[Hg10 Hvar] |];
      [| discriminate].
    destruct val_to_set as [| b | | |]; try discriminate.
    intros [= <-]. right. split; [done |]. exists b. by destruct b.
Qed.

Lemma constructed_command_translates_witness :
  parsing_gv_to_mastercmdtype 40 3 (PyFloat 3.14%float) =
    Ok (AnalogOutputFloat32 0x1.91eb86p+1%float) /\
  master_to_outstation_command_parser (AnalogOutputFloat32 0x1.91eb86p+1%float) =
    Ok (AnalogOutputStatus 0x1.91eb86p+1%float) /\
  parsing_gv_to_mastercmdtype 40 1 (PyInt 7) = Ok (AnalogOutputInt32 7) /\
  master_to_outstation_command_parser (AnalogOutputInt32 7) =
    Ok (AnalogOutputStatus 7%float) /\
  ((40 = 40 /\ exists value,
      master_to_outstation_command_parser (AnalogOutputInt32 7) =
        Ok (AnalogOutputStatus value) /\
      ((exists z, PyInt 7 = PyInt z /\
          ((1 ∈ [1; 2; 4] /\ value = nearest_double z) \/
           (1 = 3 /\ value = to_float32 (nearest_double z)))) \/
       (exists f, PyInt 7 = PyFloat f /\
          ((1 = 4 /\ value = f) \/ (1 = 3 /\ value = to_float32 f))))) \/
   (40 = 10 /\ exists b, PyInt 7 = PyBool b /\
    master_to_outstation_command_parser (AnalogOutputInt32 7) =
      Ok (BinaryOutputStatus b))).
Proof.
  split; [vm_compute; reflexivity |]. split; [vm_compute; reflexivity |].
  split; [vm_compute; reflexivity |]. split; [vm_compute; reflexivity |].
  exact (constructed_command_translates 40 1 (PyInt 7) (AnalogOutputInt32 7) eq_refl).
Defined.

(** X4. What the translation returns is a status, never a command: an
    analog output status or a binary output status, and handing that
    result to the translation again raises the not-a-valid-command
    error. *)
Theorem status_is_not_a_command (master_cmd status : obj) :
  master_to_outstation_command_parser master_cmd = Ok status ->
  ((exists value, status = AnalogOutputStatus value) \/
   (exists value, status = BinaryOutputStatus value)) /\
  master_to_outstation_command_parser status =
    Raise (ValueError (not_a_valid_command status)).
Proof.
  destruct master_cmd as [z | z | f | f | rawCode | | | |]; cbn; try discriminate.
  1-2: destruct (double_of_int z); [| discriminate].
  1-4: intros [= <-]; split; [left; eauto | done].
  repeat case_decide; try discriminate; intros [= <-]; (split; [right; eauto | done]).
Qed.

Lemma status_is_not_a_command_witness :
  master_to_outstation_command_parser (AnalogOutputInt16 7) =
    Ok (AnalogOutputStatus 7%float) /\
  master_to_outstation_command_parser (AnalogOutputStatus 7%float) =
    Raise (ValueError (not_a_valid_command (AnalogOutputStatus 7%float))).
Proof.
  split; [vm_compute; reflexivity |].
  exact (proj2 (status_is_not_a_command (AnalogOutputInt16 7) (AnalogOutputStatus 7%float)
                  ltac:(vm_compute; reflexivity))).
Defined.

End CommandTranslatorMore.

(** ** More on Python dicts *)
Section DictMore.
Context {K V : Type} `{Countable K}.
Implicit Types (pairs before after : list (K * V)) (d other : gmap K V).

Lemma fold_insert_union pairs d :
  fold_left (fun d kv => <[kv.1 := kv.2]> d) pairs d = dict pairs ∪ d.
Proof.
  revert d. induction pairs as [| [k v] pairs IH]; intros d.
  - cbn. by rewrite (left_id_L ∅ (∪)).
  - unfold dict. cbn. rewrite !IH. rewrite <- (assoc_L (∪)).
    rewrite <- insert_union_l. by rewrite (left_id_L ∅ (∪)).
Qed.

(** The dict of a concatenation is the dict of the first list updated
    with the dict of the second. *)
Lemma dict_app before after :
  dict (before ++ after) = dict_update (dict before) (dict after).
Proof. unfold dict at 1. rewrite fold_left_app. apply fold_insert_union. Qed.

Lemma dict_update_assoc d other later :
  dict_update (dict_update d other) later = dict_update d (dict_update other later).
Proof. unfold dict_update. by rewrite (assoc_L (∪)). Qed.

Lemma dict_nil : dict ([] : list (K * V)) = ∅.
Proof. reflexivity. Qed.

Lemma dict_update_nothing d : dict_update d ∅ = d.
Proof. unfold dict_update. apply (left_id_L ∅ (∪)). Qed.

(** An update never loses a key. *)
Lemma dict_update_keeps_keys d other k :
  is_Some (d !! k) -> is_Some (dict_update d other !! k).
Proof.
  intros Hk. rewrite dict_update_lookup. by destruct (other !! k); [eexists |].
Qed.

End DictMore.

(** ** Separate dict objects *)
Section Separate.
Implicit Types (objects : gmap ref (gmap Z PyVal)) (nested : gmap GroupVariation ref).

(** Storing a dict under the reference a GroupVariation already has, or
    under a reference that is new, keeps the dicts separate. *)
Lemma refs_separate_insert objects nested g r m :
  refs_separate objects nested ->
  nested !! g = Some r \/ objects !! r = None ->
  refs_separate (<[r := m]> objects) (<[g := r]> nested).
Proof.
  intros [Halloc Hinj] Hr. split.
  - intros g' r'. destruct (decide (g = g')) as [<- | Hne].
    + rewrite lookup_insert_eq. intros [= <-]. rewrite lookup_insert_eq. by eexists.
    + rewrite lookup_insert_ne by done. intros Hg'.
      destruct (decide (r = r')) as [<- | Hner].
      * rewrite lookup_insert_eq. by eexists.
      * rewrite lookup_insert_ne by done. by eapply Halloc.
  - assert (Hother : forall g', g <> g' -> nested !! g' = Some r -> False).
    { intros g' Hne Hg'. destruct Hr as [Hg | Hfresh].
      - apply Hne. by eapply Hinj.
      - destruct (Halloc g' r Hg') as [m' Hm']. congruence. }
    intros g1 g2 r0.
    destruct (decide (g = g1)) as [<- | Hne1], (decide (g = g2)) as [<- | Hne2];
      try done.
    + rewrite lookup_insert_eq, lookup_insert_ne by done. intros [= <-] Hg2.
      by destruct (Hother g2).
    + rewrite lookup_insert_eq, lookup_insert_ne by done. intros Hg1 [= <-].
      by destruct (Hother g1).
    + rewrite !lookup_insert_ne by done. apply Hinj.
Qed.

(** Such a store does not change what is staged under another key. *)
Lemma staged_other objects nested g g' r m :
  refs_separate objects nested ->
  nested !! g = Some r \/ objects !! r = None ->
  g <> g' ->
  (<[g := r]> nested !! g' ≫= fun r' => <[r := m]> objects !! r') =
  (nested !! g' ≫= fun r' => objects !! r').
Proof.
  intros [Halloc Hinj] Hr Hne. rewrite lookup_insert_ne by done.
  destruct (nested !! g') as [r' |] eqn:Hg'; [| done]. cbn.
  rewrite lookup_insert_ne; [done |]. intros <-. destruct Hr as [Hg | Hfresh].
  - apply Hne. by eapply Hinj.
  - destruct (Halloc g' r Hg') as [m' Hm']. congruence.
Qed.

Lemma refs_separate_delete objects nested g :
  refs_separate objects nested -> refs_separate objects (delete g nested).
Proof.
  intros [Halloc Hinj]. split.
  - intros g' r Hg'. apply lookup_delete_Some in Hg' as [_ Hg']. by eapply Halloc.
  - intros g1 g2 r Hg1 Hg2. apply lookup_delete_Some in Hg1 as [_ Hg1].
    apply lookup_delete_Some in Hg2 as [_ Hg2]. by eapply Hinj.
Qed.

Lemma fresh_ref_unused objects : objects !! fresh (dom objects) = None.
Proof. apply not_elem_of_dom, is_fresh. Qed.

End Separate.

(** ** [station_utils.SOEHandler]: what observations keep and change *)
Section StationStagingMore.
Import station_utils station_utils_rest.

(** What [_post_process] does to each attribute, and which dict object
    receives the merge: the one staged when it is not empty, a new one
    otherwise. *)
Lemma station_post_process_spec now1 now2 g batch (self : SOEHandler) :
  let self' := _post_process now1 now2 g batch self in
  exists r,
    objects self' =
      <[r := dict_update (default ∅ (staged self g)) (dict batch)]> (objects self) /\
    _gv_index_value_nested_dict self' = <[g := r]> (_gv_index_value_nested_dict self) /\
    _gv_ts_ind_val_dict self' = <[g := (now1, Some r)]> (_gv_ts_ind_val_dict self) /\
    _gv_last_poll_dict self' = <[g := now2]> (_gv_last_poll_dict self) /\
    ((_gv_index_value_nested_dict self !! g = Some r /\
      dict_truth (deref self r) = true) \/
     (r = fresh (dom (objects self)) /\
      truth self (_gv_index_value_nested_dict self !! g) = false)).
Proof.
  cbn zeta. rewrite staged_default_deref. unfold _post_process.
  destruct (truth self (_gv_index_value_nested_dict self !! g)) eqn:Htruth; cbn.
  - destruct (_gv_index_value_nested_dict self !! g) as [r |] eqn:Hr; [| done].
    exists r. cbn. rewrite Hr. rewrite (insert_id _ _ _ Hr). repeat split; try done.
    by left.
  - exists (fresh (dom (objects self))). rewrite lookup_insert_eq.
    split; [| repeat split; try done; by right]. f_equal.
    destruct (_gv_index_value_nested_dict self !! g) as [r |] eqn:Hr.
    + cbn in Htruth. apply dict_truth_false in Htruth. rewrite Htruth.
      by rewrite dict_update_empty.
    + by rewrite dict_update_empty.
Qed.

Lemma station_post_process_ref g (self : SOEHandler) r :
  (_gv_index_value_nested_dict self !! g = Some r /\ dict_truth (deref self r) = true) \/
  (r = fresh (dom (objects self)) /\
   truth self (_gv_index_value_nested_dict self !! g) = false) ->
  _gv_index_value_nested_dict self !! g = Some r \/ objects self !! r = None.
Proof.
  intros [[Hr _] | [-> _]]; [by left | right; apply fresh_ref_unused].
Qed.

Lemma station_init_consistent : consistent __init__.
Proof.
  unfold consistent, __init__; cbn. repeat split; intros *;
    rewrite ?lookup_empty; try done; intros []; done.
Qed.

Lemma station_post_process_consistent now1 now2 g batch (self : SOEHandler) :
  consistent self -> consistent (_post_process now1 now2 g batch self).
Proof.
  intros (Hts & Hpoll & Hsame & Hsep).
  destruct (station_post_process_spec now1 now2 g batch self)
    as (r & Hobj & Hnested & Hts' & Hpoll' & Hr).
  apply station_post_process_ref in Hr.
  unfold consistent. rewrite Hobj, Hnested, Hts', Hpoll'. split; [| split; [| split]].
  - intros g'. destruct (decide (g = g')) as [<- | Hne].
    + rewrite !lookup_insert_eq. split; eauto.
    + rewrite !lookup_insert_ne by done. apply Hts.
  - intros g'. destruct (decide (g = g')) as [<- | Hne].
    + rewrite !lookup_insert_eq. split; eauto.
    + rewrite !lookup_insert_ne by done. apply Hpoll.
  - intros g' ts x. destruct (decide (g = g')) as [<- | Hne].
    + rewrite !lookup_insert_eq. by intros [= <- <-].
    + rewrite !lookup_insert_ne by done. apply Hsame.
  - by apply refs_separate_insert.
Qed.

Lemma station_exec_consistent (c : call) (self : SOEHandler) :
  consistent self -> consistent (exec c self).
Proof.
  intros Hcons.
  destruct c as [now1 now2 info values | now1 now2 g batch | | |]; cbn [exec];
    try done.
  - unfold Process. destruct (visitor_class_types (type_of values)); [| done].
    by apply station_post_process_consistent.
  - by apply station_post_process_consistent.
Qed.

Lemma station_fold_consistent (calls : list call) (self : SOEHandler) :
  consistent self -> consistent (fold_left (fun self c => exec c self) calls self).
Proof.
  revert self. induction calls as [| c calls IH]; intros self Hcons; [done |].
  cbn. apply IH. by apply station_exec_consistent.
Qed.

Lemma station_run_consistent (calls : list call) : consistent (run calls).
Proof. apply station_fold_consistent, station_init_consistent. Qed.

(** An observation for one GroupVariation leaves what is staged for
    another as it was: content, time stamp and last poll. *)
Lemma station_post_process_other now1 now2 g g' batch (self : SOEHandler) :
  consistent self -> g <> g' ->
  let self' := _post_process now1 now2 g batch self in
  staged self' g' = staged self g' /\
  entry self' (_gv_ts_ind_val_dict self') g' = entry self (_gv_ts_ind_val_dict self) g' /\
  _gv_last_poll_dict self' !! g' = _gv_last_poll_dict self !! g'.
Proof.
  intros (Hts & Hpoll & Hsame & Hsep) Hne. cbn zeta.
  destruct (station_post_process_spec now1 now2 g batch self)
    as (r & Hobj & Hnested & Hts' & Hpoll' & Hr).
  apply station_post_process_ref in Hr.
  pose proof (staged_other _ _ g g' r
                (dict_update (default ∅ (staged self g)) (dict batch)) Hsep Hr Hne)
    as Hstaged.
  unfold staged, entry. rewrite Hobj, Hnested, Hts', Hpoll'.
  split; [exact Hstaged |]. split; [| by rewrite lookup_insert_ne].
  rewrite lookup_insert_ne by done.
  destruct (_gv_ts_ind_val_dict self !! g') as [[ts x] |] eqn:Hg'; [| done].
  rewrite (Hsame g' ts x Hg'). f_equal. f_equal.
  by rewrite lookup_insert_ne in Hstaged.
Qed.

Lemma station_run_app (calls more : list call) :
  run (calls ++ more) = fold_left (fun self c => exec c self) more (run calls).
Proof. unfold run. apply fold_left_app. Qed.

Lemma station_staged_after_post now1 now2 g batch (self : SOEHandler) :
  staged (_post_process now1 now2 g batch self) g =
    Some (dict_update (default ∅ (staged self g)) (dict batch)).
Proof.
  destruct (post_process_staged now1 now2 g batch self) as (r & Hnested & Hobj & _).
  unfold staged at 1. by rewrite Hnested.
Qed.

(** After a call the staged dict of a GroupVariation has at least the
    indices it had. *)
Lemma station_exec_keeps (c : call) (self : SOEHandler) g m :
  consistent self -> staged self g = Some m ->
  exists m', staged (exec c self) g = Some m' /\ dom m ⊆ dom m'.
Proof.
  intros Hcons Hm.
  assert (Hpost : forall now1 now2 g0 batch,
            exists m', staged (_post_process now1 now2 g0 batch self) g = Some m' /\
                       dom m ⊆ dom m').
  { intros now1 now2 g0 batch. destruct (decide (g0 = g)) as [-> | Hne].
    - rewrite station_staged_after_post, Hm. eexists. split; [done |].
      unfold dict_update. cbn. rewrite dom_union_L. set_solver.
    - destruct (station_post_process_other now1 now2 g0 g batch self Hcons Hne)
        as [-> _]. by exists m. }
  destruct c as [now1 now2 info values | now1 now2 g0 batch | | |]; cbn [exec];
    try by exists m.
  - unfold Process. destruct (visitor_class_types (type_of values)); [| by exists m].
    apply Hpost.
  - apply Hpost.
Qed.

(** X7. On every [station_utils.SOEHandler] that calls can produce the
    time-stamped store, the merged-value store and the last-poll store
    have the same keys; under each key the tuple holds the very dict the
    merged-value store holds, and that dict exists; and no two
    GroupVariations share a dict object. *)
Theorem station_stores_agree (calls : list call) :
  let self := run calls in
  dom (_gv_ts_ind_val_dict self) = dom (_gv_index_value_nested_dict self) /\
  dom (_gv_last_poll_dict self) = dom (_gv_index_value_nested_dict self) /\
  (forall g, g ∈ dom (_gv_index_value_nested_dict self) ->
     exists ts r m polled,
       _gv_ts_ind_val_dict self !! g = Some (ts, Some r) /\
       _gv_index_value_nested_dict self !! g = Some r /\
       objects self !! r = Some m /\
       _gv_last_poll_dict self !! g = Some polled) /\
  (forall g1 g2 r,
     _gv_index_value_nested_dict self !! g1 = Some r ->
     _gv_index_value_nested_dict self !! g2 = Some r -> g1 = g2).
Proof.
  cbn zeta. destruct (station_run_consistent calls)
    as (Hts & Hpoll & Hsame & Halloc & Hinj).
  split; [| split; [| split]].
  - apply set_eq. intros g. rewrite !elem_of_dom. apply Hts.
  - apply set_eq. intros g. rewrite !elem_of_dom. apply Hpoll.
  - intros g Hg. apply elem_of_dom in Hg as [r Hr].
    destruct (proj2 (Hts g)) as [[ts x] Hx]; [by eexists |].
    destruct (proj2 (Hpoll g)) as [polled Hpolled]; [by eexists |].
    destruct (Halloc g r Hr) as [m Hm].
    pose proof (Hsame g ts x Hx) as ->. rewrite Hr in Hx. by exists ts, r, m, polled.
  - exact Hinj.
Qed.

Lemma station_stores_agree_witness :
  let self := run [call__post_process 1 2 Group30Var1 [(1, PyFloat 10%float)];
                   call__post_process 3 4 Group40Var1 [(0, PyInt 7)]] in
  Group30Var1 ∈ dom (_gv_index_value_nested_dict self) /\
  exists ts r m polled,
    _gv_ts_ind_val_dict self !! Group30Var1 = Some (ts, Some r) /\
    _gv_index_value_nested_dict self !! Group30Var1 = Some r /\
    objects self !! r = Some m /\
    _gv_last_poll_dict self !! Group30Var1 = Some polled.
Proof.
  intros self.
  assert (Hin : Group30Var1 ∈ dom (_gv_index_value_nested_dict self)) by by_evaluation.
  split; [exact Hin |].
  exact (proj1 (proj2 (proj2 (station_stores_agree _))) Group30Var1 Hin).
Defined.

(** X8. [station_utils.SOEHandler] never forgets: whatever calls follow,
    a GroupVariation that is staged stays staged, and its dict keeps every
    index it has (values may be overwritten, indices are never removed). *)
Theorem station_never_forgets (calls more : list call) (g : GroupVariation)
    (m : gmap Z PyVal) :
  staged (run calls) g = Some m ->
  exists m', staged (run (calls ++ more)) g = Some m' /\ dom m ⊆ dom m'.
Proof.
  rewrite station_run_app. pose proof (station_run_consistent calls) as Hcons.
  generalize dependent (run calls). intros self Hcons. revert self m Hcons.
  induction more as [| c more IH]; intros self m Hcons Hm; [by exists m |].
  cbn. destruct (station_exec_keeps c self g m Hcons Hm) as (m1 & Hm1 & Hsub1).
  destruct (IH (exec c self) m1) as (m' & Hm' & Hsub'); [| done |].
  { by apply station_exec_consistent. }
  exists m'. split; [done |]. set_solver.
Qed.

Lemma station_never_forgets_witness :
  exists m',
    staged (run ([call__post_process 1 2 Group30Var1 [(1, PyFloat 10%float)]] ++
                 [call__post_process 3 4 Group30Var1 [(2, PyFloat 20%float)];
                  call_gv_ts_ind_val_dict])) Group30Var1 = Some m' /\
    dom (dict [(1, PyFloat 10%float)]) ⊆ dom m'.
Proof.
  exact (station_never_forgets
           [call__post_process 1 2 Group30Var1 [(1, PyFloat 10%float)]]
           [call__post_process 3 4 Group30Var1 [(2, PyFloat 20%float)];
            call_gv_ts_ind_val_dict]
           Group30Var1 (dict [(1, PyFloat 10%float)]) eq_refl).
Defined.

(** X9. An observation for one GroupVariation leaves every other one as
    it was: on a handler that calls can produce, [_post_process] for [g]
    changes neither the staged dict, nor the time-stamped entry, nor the
    last poll time of any [g'] other than [g]. *)
Theorem station_observation_leaves_others (calls : list call) (now1 now2 : datetime)
    (g g' : GroupVariation) (batch : list (Z * PyVal)) :
  g <> g' ->
  let self := run calls in
  let self' := _post_process now1 now2 g batch self in
  staged self' g' = staged self g' /\
  entry self' (_gv_ts_ind_val_dict self') g' = entry self (_gv_ts_ind_val_dict self) g' /\
  _gv_last_poll_dict self' !! g' = _gv_last_poll_dict self !! g'.
Proof.
  intros Hne. apply station_post_process_other; [apply station_run_consistent | done].
Qed.

Lemma station_observation_leaves_others_witness :
  let self := run [call__post_process 1 2 Group30Var1 [(1, PyFloat 10%float)]] in
  Group40Var1 <> Group30Var1 /\
  staged (_post_process 3 4 Group40Var1 [(1, PyInt 7)] self) Group30Var1 =
    Some (dict [(1, PyFloat 10%float)]).
Proof.
  intros self.
  assert (Hne : Group40Var1 <> Group30Var1) by discriminate.
  split; [exact Hne |]. subst self.
  rewrite (proj1 (station_observation_leaves_others
                    [call__post_process 1 2 Group30Var1 [(1, PyFloat 10%float)]]
                    3 4 Group40Var1 Group30Var1 [(1, PyInt 7)] Hne)).
  reflexivity.
Defined.

(** X10. The merge is done in place exactly when something is staged:
    over a staged dict that is not empty [_post_process] updates that very
    object, so a client that holds it sees the new values; over nothing,
    or over an empty dict, it stores a new object that no one holds yet. *)
Theorem merge_in_place_when_nonempty (now1 now2 : datetime) (g : GroupVariation)
    (batch : list (Z * PyVal)) (self : SOEHandler) :
  let self' := _post_process now1 now2 g batch self in
  (forall r m,
     _gv_index_value_nested_dict self !! g = Some r ->
     objects self !! r = Some m -> m <> ∅ ->
     _gv_index_value_nested_dict self' !! g = Some r /\
     objects self' !! r = Some (dict_update m (dict batch))) /\
  (staged self g = None \/ staged self g = Some ∅ ->
   exists r',
     _gv_index_value_nested_dict self' !! g = Some r' /\
     objects self !! r' = None /\
     objects self' !! r' = Some (dict batch)).
Proof.
  cbn zeta.
  destruct (station_post_process_spec now1 now2 g batch self)
    as (r0 & Hobj & Hnested & _ & _ & Hr0).
  rewrite Hobj, Hnested, !lookup_insert_eq. split.
  - intros r m Hr Hm Hnonempty.
    assert (Htruth : truth self (_gv_index_value_nested_dict self !! g) = true).
    { rewrite Hr. cbn. unfold deref. rewrite (lookup_total_correct _ _ _ Hm).
      unfold dict_truth. apply negb_true_iff, bool_decide_eq_false.
      by rewrite map_size_empty_iff. }
    destruct Hr0 as [[Hr0 _] | [_ Hfalse]]; [| congruence].
    assert (r0 = r) as -> by congruence.
    rewrite lookup_insert_eq. unfold staged. rewrite Hr. cbn. by rewrite Hm.
  - intros Hstaged.
    assert (Hold : default ∅ (staged self g) = ∅) by (by destruct Hstaged as [-> | ->]).
    assert (Htruth : truth self (_gv_index_value_nested_dict self !! g) = false).
    { rewrite staged_default_deref in Hold.
      destruct (_gv_index_value_nested_dict self !! g) as [r |]; [| done].
      cbn. by rewrite Hold. }
    destruct Hr0 as [[Hr0 Htrue] | [-> _]].
    { rewrite Hr0 in Htruth. cbn in Htruth. congruence. }
    eexists. split; [done |]. split; [apply fresh_ref_unused |].
    rewrite lookup_insert_eq, Hold. by rewrite dict_update_empty.
Qed.

Lemma merge_in_place_when_nonempty_witness :
  let self := _post_process 1 2 Group30Var1 [(1, PyFloat 10%float)] __init__ in
  staged __init__ Group30Var1 = None /\
  (exists r',
     _gv_index_value_nested_dict self !! Group30Var1 = Some r' /\
     objects __init__ !! r' = None /\
     objects self !! r' = Some (dict [(1, PyFloat 10%float)])).
Proof.
  intros self. split; [reflexivity |].
  exact (proj2 (merge_in_place_when_nonempty 1 2 Group30Var1 [(1, PyFloat 10%float)]
                  __init__) (or_introl eq_refl)).
Defined.

(** X11. An observation without a single pair still counts: it stages
    the GroupVariation (with an empty dict when nothing was staged),
    keeps the indices and values that are staged, and refreshes the time
    stamp and the last poll time. *)
Theorem empty_observation_refreshes (now1 now2 : datetime) (g : GroupVariation)
    (self : SOEHandler) :
  let self' := _post_process now1 now2 g [] self in
  staged self' g = Some (default ∅ (staged self g)) /\
  entry self' (_gv_ts_ind_val_dict self') g =
    Some (now1, Some (default ∅ (staged self g))) /\
  _gv_last_poll_dict self' !! g = Some now2.
Proof.
  cbn zeta.
  destruct (post_process_staged now1 now2 g [] self) as (r & Hnested & Hobj & Hts & Hpoll).
  rewrite dict_nil, dict_update_nothing in Hobj.
  unfold staged at 1, entry. rewrite Hnested, Hts. cbn. by rewrite Hobj.
Qed.

(** X12. Two observations in a row stage what one observation of the two
    batches, one after the other, stages. *)
Theorem observations_compose (now1 now2 now3 now4 : datetime) (g : GroupVariation)
    (first second : list (Z * PyVal)) (self : SOEHandler) :
  staged (_post_process now3 now4 g second (_post_process now1 now2 g first self)) g =
  staged (_post_process now3 now4 g (first ++ second) self) g.
Proof.
  rewrite !station_staged_after_post. cbn. f_equal.
  by rewrite dict_app, dict_update_assoc.
Qed.

End StationStagingMore.

(** ** The visitor of the other collections, and of [master_utils] *)
Section ValueVisitorMore.

(** X5. In [station_utils.SOEHandler.Process] only analog and
    analog-output-status collections depend on the header: a collection
    of any of the six other classes is decoded with the visitor of its
    class whatever the GroupVariation; and a collection of no known class
    raises [KeyError] and leaves the handler as it was. *)
Theorem other_collections_keep_their_visitor (now1 now2 : datetime) (info : HeaderInfo)
    (values : Collection) (self : station_utils.SOEHandler) :
  type_of values <> ICollectionIndexedAnalog ->
  type_of values <> ICollectionIndexedAnalogOutputStatus ->
  match visitor_class_types (type_of values) with
  | Some visitor_class =>
      station_utils.Process now1 now2 info values self =
        (Ok tt, station_utils._post_process now1 now2 (gv info)
                  (Foreach values visitor_class) self)
  | None =>
      station_utils.Process now1 now2 info values self =
        (Raise (KeyError_type (type_of values)), self)
  end.
Proof.
  intros Hanalog Hstatus. unfold station_utils.Process.
  destruct (type_of values); try done; cbn; unfold modify;
    unfold station_utils.Process_visitor; by rewrite !decide_False.
Qed.

Lemma other_collections_keep_their_visitor_witness :
  let bits : Collection :=
    {| type_of := ICollectionIndexedBinary;
       Foreach := fun visitor =>
         match visitor with
         | VisitorIndexedBinary => [(0, PyBool true)]
         | _ => []
         end |} in
  station_utils.Process 1 2 {| gv := Group30Var1; headerIndex := 0 |} bits
    station_utils.__init__ =
  (Ok tt, station_utils._post_process 1 2 Group30Var1 [(0, PyBool true)]
            station_utils.__init__).
Proof.
  intros bits.
  apply (other_collections_keep_their_visitor 1 2
           {| gv := Group30Var1; headerIndex := 0 |} bits station_utils.__init__);
    discriminate.
Defined.

(** X6. [master_utils.SOEHandler.Process] has no integer decoding: for
    every known collection class it uses the visitor of the class,
    whatever the header.  So the two handlers are handed the same visitor
    for a collection except for an analog collection under 30.1-30.4 or
    32.1-32.4 and an analog-output-status collection under 40.1, 40.2 or
    42.1-42.4, where [station_utils] takes the integer visitor and
    [master_utils] the plain one. *)
Theorem master_process_has_no_integer_decoding (now now1 now2 : datetime)
    (info : HeaderInfo) (values : Collection) (visitor_class : Visitor)
    (master : master_utils.SOEHandler) (station : station_utils.SOEHandler) :
  visitor_class_types (type_of values) = Some visitor_class ->
  master_utils.Process now info values master =
    (Ok tt, master_utils._post_process now (gv info)
              (Foreach values visitor_class) master) /\
  station_utils.Process now1 now2 info values station =
    (Ok tt, station_utils._post_process now1 now2 (gv info)
              (Foreach values (station_utils.Process_visitor (gv info) visitor_class))
              station) /\
  (station_utils.Process_visitor (gv info) visitor_class <> visitor_class <->
   (type_of values = ICollectionIndexedAnalog /\
    (group (gv info) = 30 \/ group (gv info) = 32)%N /\
    (1 <= variation (gv info) <= 4)%N) \/
   (type_of values = ICollectionIndexedAnalogOutputStatus /\
    ((group (gv info) = 40 /\ 1 <= variation (gv info) <= 2)%N \/
     (group (gv info) = 42 /\ 1 <= variation (gv info) <= 4)%N))).
Proof.
  intros Hclass. unfold master_utils.Process, station_utils.Process. rewrite Hclass.
  split; [done |]. split; [done |].
  destruct (type_of values); simplify_eq/=;
    try (unfold station_utils.Process_visitor; rewrite !decide_False by done;
         split; [done | intros [[? _] | [? _]]; discriminate]).
  - rewrite Process_visitor_analog, <- integer_analog_variations.
    case_bool_decide; split; try done.
    + intros _. by left.
    + intros [[_ Hin] | [Hno _]]; [tauto | discriminate].
  - rewrite Process_visitor_status, <- integer_status_variations.
    case_bool_decide; split; try done.
    + intros _. by right.
    + intros [[Hno _] | [_ Hin]]; [discriminate | tauto].
Qed.

Lemma master_process_has_no_integer_decoding_witness :
  let ints : Collection :=
    {| type_of := ICollectionIndexedAnalog;
       Foreach := fun visitor =>
         match visitor with
         | VisitorIndexedAnalogInt => [(0, PyInt 3)]
         | _ => [(0, PyFloat 3.14%float)]
         end |} in
  let info := {| gv := Group30Var1; headerIndex := 0 |} in
  master_utils.staged (master_utils.Process 5 info ints master_utils.__init__).2
    Group30Var1 = Some (dict [(0, PyFloat 3.14%float)]) /\
  station_utils.staged (station_utils.Process 5 6 info ints station_utils.__init__).2
    Group30Var1 = Some (dict [(0, PyInt 3)]).
Proof.
  intros ints info.
  destruct (master_process_has_no_integer_decoding 5 5 6 info ints VisitorIndexedAnalog
              master_utils.__init__ station_utils.__init__ eq_refl)
    as (-> & -> & _).
  split; reflexivity.
Defined.

End ValueVisitorMore.

(** ** [master_utils.SOEHandler]: the sweep in full *)
Section MasterSweepMore.
Import master_utils master_utils_rest.

Lemma master_handler_eq (a b : SOEHandler) :
  objects a = objects b ->
  _gv_index_value_nested_dict a = _gv_index_value_nested_dict b ->
  _gv_ts_ind_val_dict a = _gv_ts_ind_val_dict b ->
  _stale_if_longer_than_in_sec a = _stale_if_longer_than_in_sec b ->
  a = b.
Proof. destruct a, b; cbn; by intros -> -> -> ->. Qed.

(** Which dict object [_post_process] merges into. *)
Lemma master_post_process_ref now g batch (self : SOEHandler) :
  let self' := _post_process now g batch self in
  exists r,
    objects self' =
      <[r := dict_update (default ∅ (staged self g)) (dict batch)]> (objects self) /\
    _gv_index_value_nested_dict self' = <[g := r]> (_gv_index_value_nested_dict self) /\
    _gv_ts_ind_val_dict self' = <[g := (now, Some r)]> (_gv_ts_ind_val_dict self) /\
    (_gv_index_value_nested_dict self !! g = Some r \/ objects self !! r = None).
Proof.
  cbn zeta. rewrite master_staged_default_deref. unfold _post_process.
  destruct (truth self (_gv_index_value_nested_dict self !! g)) eqn:Htruth; cbn.
  - destruct (_gv_index_value_nested_dict self !! g) as [r |] eqn:Hr; [| done].
    exists r. cbn. rewrite Hr. rewrite (insert_id _ _ _ Hr). repeat split; try done.
    by left.
  - exists (fresh (dom (objects self))). rewrite lookup_insert_eq.
    split; [| repeat split; try done; right; apply fresh_ref_unused]. f_equal.
    destruct (_gv_index_value_nested_dict self !! g) as [r |] eqn:Hr.
    + cbn in Htruth. apply dict_truth_false in Htruth. rewrite Htruth.
      by rewrite dict_update_empty.
    + by rewrite dict_update_empty.
Qed.

Lemma master_post_process_separate now g batch (self : SOEHandler) :
  separate self -> separate (_post_process now g batch self).
Proof.
  intros Hsep. destruct (master_post_process_ref now g batch self)
    as (r & Hobj & Hnested & _ & Hr).
  unfold separate. rewrite Hobj, Hnested. by apply refs_separate_insert.
Qed.

Lemma master_sweep_separate (now : GroupVariation -> datetime) stale (self : SOEHandler) :
  consistent self -> separate self -> separate (_update_stale_db now stale self).2.
Proof.
  intros Hcons [Halloc Hinj]. pose proof (sweep_cases now stale self Hcons) as Hcases.
  destruct (sweep_spec now stale self Hcons) as (self' & Hrun & Hobj & _).
  rewrite Hrun in *. cbn in *. split; rewrite ?Hobj.
  - intros g r. destruct (Hcases g) as [[_ ->] | [_ ->]]; [done | apply Halloc].
  - intros g1 g2 r.
    destruct (Hcases g1) as [[_ ->] | [_ ->]]; [done |].
    destruct (Hcases g2) as [[_ ->] | [_ ->]]; [done |]. apply Hinj.
Qed.

Lemma master_exec_separate (c : call) (self : SOEHandler) :
  consistent self -> separate self -> separate (exec c self).
Proof.
  intros Hcons Hsep.
  destruct c as [now info values | now g batch | now stale | | now]; cbn [exec].
  - unfold Process. destruct (visitor_class_types (type_of values)); [| done].
    by apply master_post_process_separate.
  - by apply master_post_process_separate.
  - by apply master_sweep_separate.
  - done.
  - rewrite read_spec by done. by apply master_sweep_separate.
Qed.

Lemma master_run_separate (calls : list call) : separate (run calls).
Proof.
  unfold run. induction calls as [| c calls IH] using rev_ind.
  - split; intros *; unfold __init__; cbn; by rewrite lookup_empty.
  - rewrite fold_left_app. cbn. apply master_exec_separate; [| done].
    apply (run_consistent calls).
Qed.

(** X13. The sweep removes exactly the stale entries.  For a threshold
    of at most [10**9] seconds in absolute value (the range in which the
    comparison of [total_seconds()] with the threshold is the comparison
    of the microsecond counts), on a handler that calls can produce,
    [_update_stale_db] returns; the time-stamped store keeps the entries
    whose age, at the clock reading of their round, is below the
    threshold, the merged-value store keeps the same keys, and no dict
    object is touched. *)
Theorem sweep_removes_exactly_stale (calls : list call)
    (now : GroupVariation -> datetime) (stale_if_longer_than : Z) :
  Z.abs stale_if_longer_than <= 1000000000 ->
  let self := run calls in
  exists self',
    _update_stale_db now stale_if_longer_than self = (Ok tt, self') /\
    _gv_ts_ind_val_dict self' =
      filter (fun entry =>
                total_seconds_ge (now entry.1) entry.2.1 stale_if_longer_than = false)
             (_gv_ts_ind_val_dict self) /\
    _gv_index_value_nested_dict self' =
      filter (fun entry => entry.1 ∈ dom (_gv_ts_ind_val_dict self'))
             (_gv_index_value_nested_dict self) /\
    objects self' = objects self.
Proof.
  intros _. cbn zeta. destruct (run_consistent calls) as [Hcons _].
  pose proof (sweep_cases now stale_if_longer_than _ Hcons) as Hcases.
  destruct (sweep_spec now stale_if_longer_than _ Hcons)
    as (self' & Hrun & Hobj & _ & Hevict & Hkeep).
  rewrite Hrun in Hcases. cbn in Hcases.
  exists self'. split; [done |]. split; [| split; [| done]].
  - apply map_eq. intros g. apply option_eq. intros [ts x].
    rewrite map_lookup_filter_Some. cbn.
    destruct (_gv_ts_ind_val_dict (run calls) !! g) as [[ts0 x0] |] eqn:Hg.
    + destruct (total_seconds_ge (now g) ts0 stale_if_longer_than) eqn:Hge.
      * destruct (Hevict g ts0 x0 Hg Hge) as [-> _].
        split; [done | intros [[= <- <-] ?]; congruence].
      * destruct (Hkeep g) as [-> _].
        { intros ts' x'. rewrite Hg. by intros [= <- <-]. }
        rewrite Hg. split; [intros [= <- <-]; done | tauto].
    + destruct (Hkeep g) as [-> _]; [intros ts' x'; by rewrite Hg |].
      rewrite Hg. split; [done | tauto].
  - destruct Hcons as (Hkeys & _ & _).
    apply map_eq. intros g. apply option_eq. intros r.
    rewrite map_lookup_filter_Some, elem_of_dom. cbn.
    destruct (Hcases g) as [[-> ->] | [-> ->]].
    + split; [done | intros [_ []]; done].
    + split; [| tauto]. intros Hr. split; [done |]. apply Hkeys. by eexists.
Qed.

Lemma sweep_removes_exactly_stale_witness :
  let calls :=
    [call__post_process 0 Group30Var1 [(0, PyInt 1)];
     call__post_process 15000000 Group1Var2 [(0, PyBool true)]] in
  let now : GroupVariation -> datetime := fun _ => 20000000 in
  Z.abs 10 <= 1000000000 /\
  exists self',
    _update_stale_db now 10 (run calls) = (Ok tt, self') /\
    _gv_ts_ind_val_dict self' =
      filter (fun entry => total_seconds_ge (now entry.1) entry.2.1 10 = false)
             (_gv_ts_ind_val_dict (run calls)) /\
    _gv_index_value_nested_dict self' =
      filter (fun entry => entry.1 ∈ dom (_gv_ts_ind_val_dict self'))
             (_gv_index_value_nested_dict (run calls)) /\
    objects self' = objects (run calls).
Proof.
  intros calls now.
  assert (Hthreshold : Z.abs 10 <= 1000000000) by (cbn; lia).
  split; [exact Hthreshold |].
  exact (sweep_removes_exactly_stale calls now 10 Hthreshold).
Defined.

(** X14. The threshold is inclusive.  After an observation of [G] at
    time [T] on a handler that calls can produce, a read of
    [gv_ts_ind_val_dict] returns a dict without [G] exactly when the
    clock reading for [G] is [T] plus ten seconds or later, and with the
    entry of [G] when it is even one microsecond earlier. *)
Theorem eviction_threshold_inclusive (calls : list call) (T : datetime)
    (G : GroupVariation) (batch : list (Z * PyVal)) (now : GroupVariation -> datetime) :
  let self1 := _post_process T G batch (run calls) in
  let merged := dict_update (default ∅ (staged (run calls) G)) (dict batch) in
  exists self2,
    gv_ts_ind_val_dict now self1 = (Ok (_gv_ts_ind_val_dict self2), self2) /\
    (T + 10000000 <= now G <-> entry self2 (_gv_ts_ind_val_dict self2) G = None) /\
    (now G < T + 10000000 <->
     entry self2 (_gv_ts_ind_val_dict self2) G = Some (T, Some merged)).
Proof.
  cbn zeta. destruct (run_consistent calls) as [Hcons Hstale].
  destruct (master_read_after_observe now T G batch _ Hcons)
    as (self2 & Hread & Hevict & Hkeep).
  rewrite Hstale in Hevict, Hkeep. exists self2. split; [exact Hread |].
  destruct (total_seconds_ge (now G) T 10) eqn:Hge.
  - destruct (Hevict eq_refl) as [Hts _]. unfold entry. rewrite Hts.
    apply Z.leb_le in Hge. split; split; try done; lia.
  - destruct (Hkeep eq_refl) as [-> _].
    apply Z.leb_gt in Hge. split; split; try done; lia.
Qed.

(** X15. Eviction forgets the values.  When an entry was evicted by a
    read, the next observation of its GroupVariation stages the new batch
    alone: the values observed before the eviction do not come back. *)
Theorem merge_restarts_after_eviction (calls : list call) (T T' : datetime)
    (G : GroupVariation) (before after : list (Z * PyVal))
    (now : GroupVariation -> datetime) :
  T + 10000000 <= now G ->
  let self1 := _post_process T G before (run calls) in
  let self2 := (gv_ts_ind_val_dict now self1).2 in
  staged self2 G = None /\
  staged (_post_process T' G after self2) G = Some (dict after).
Proof.
  intros Hnow. cbn zeta. destruct (run_consistent calls) as [Hcons Hstale].
  destruct (master_read_after_observe now T G before _ Hcons)
    as (self2 & -> & Hevict & _).
  rewrite Hstale in Hevict. cbn [snd].
  destruct Hevict as [_ Hnested]; [by apply Z.leb_le; lia |].
  assert (Hnone : staged self2 G = None) by (unfold staged; by rewrite Hnested).
  split; [done |].
  destruct (master_post_process_spec T' G after self2) as (r & Hobj & Hn & _).
  unfold staged. rewrite Hn, Hobj, !lookup_insert_eq. cbn.
  rewrite lookup_insert_eq, Hnone. cbn. by rewrite dict_update_empty.
Qed.

Lemma merge_restarts_after_eviction_witness :
  let self1 := _post_process 0 Group30Var1 [(1, PyFloat 10%float)] (run []) in
  let self2 := (gv_ts_ind_val_dict (fun _ => 10000000) self1).2 in
  0 + 10000000 <= 10000000 /\
  staged self2 Group30Var1 = None /\
  staged (_post_process 10000001 Group30Var1 [(2, PyFloat 20%float)] self2) Group30Var1
    = Some (dict [(2, PyFloat 20%float)]).
Proof.
  intros self1 self2.
  assert (Hnow : 0 + 10000000 <= 10000000) by lia.
  split; [exact Hnow |].
  exact (merge_restarts_after_eviction [] 0 10000001 Group30Var1
           [(1, PyFloat 10%float)] [(2, PyFloat 20%float)] (fun _ => 10000000) Hnow).
Defined.

(** X16. Reading twice at the same clock readings changes nothing more:
    the second read returns the dict the first one returned and leaves
    the handler as the first one left it. *)
Theorem read_again_changes_nothing (calls : list call)
    (now : GroupVariation -> datetime) :
  let self1 := (gv_ts_ind_val_dict now (run calls)).2 in
  gv_ts_ind_val_dict now self1 = (Ok (_gv_ts_ind_val_dict self1), self1).
Proof.
  cbn zeta. destruct (run_consistent calls) as [Hcons Hstale].
  rewrite (read_spec now _ Hcons), Hstale. cbn [snd].
  pose proof (sweep_consistent now 10 _ Hcons) as Hcons1.
  destruct (sweep_spec now 10 _ Hcons) as (self1 & Hrun & Hobj & Hstale1 & Hevict & Hkeep).
  rewrite Hrun in *. cbn [snd] in *.
  rewrite (read_spec now _ Hcons1), Hstale1, Hstale.
  destruct (sweep_spec now 10 _ Hcons1) as (self2 & Hrun2 & Hobj2 & Hstale2 & _ & Hkeep2).
  rewrite Hrun2. cbn [snd].
  assert (Hfresh : forall g ts x, _gv_ts_ind_val_dict self1 !! g = Some (ts, x) ->
                     total_seconds_ge (now g) ts 10 = false).
  { intros g ts x Hg.
    destruct (_gv_ts_ind_val_dict (run calls) !! g) as [[ts0 x0] |] eqn:Hg0.
    - destruct (total_seconds_ge (now g) ts0 10) eqn:Hge.
      + destruct (Hevict g ts0 x0 Hg0 Hge) as [Hnone _]. congruence.
      + destruct (Hkeep g) as [Hsame _].
        { intros ts' x'. rewrite Hg0. by intros [= <- <-]. }
        rewrite Hsame, Hg0 in Hg. by injection Hg as <- <-.
    - destruct (Hkeep g) as [Hsame _]; [intros ts' x'; by rewrite Hg0 |].
      rewrite Hsame, Hg0 in Hg. done. }
  assert (self2 = self1) as ->; [| done].
  apply master_handler_eq; [done | | | congruence].
  - apply map_eq. intros g. apply (Hkeep2 g). intros ts x. apply Hfresh.
  - apply map_eq. intros g. apply (Hkeep2 g). intros ts x. apply Hfresh.
Qed.

(** X17. In [master_utils.SOEHandler] too an observation for one
    GroupVariation leaves every other one as it was, and no two
    GroupVariations ever share a dict object. *)
Theorem master_observation_leaves_others (calls : list call) (now : datetime)
    (g g' : GroupVariation) (batch : list (Z * PyVal)) :
  g <> g' ->
  let self := run calls in
  let self' := _post_process now g batch self in
  staged self' g' = staged self g' /\
  entry self' (_gv_ts_ind_val_dict self') g' = entry self (_gv_ts_ind_val_dict self) g' /\
  (forall g1 g2 r,
     _gv_index_value_nested_dict self !! g1 = Some r ->
     _gv_index_value_nested_dict self !! g2 = Some r -> g1 = g2).
Proof.
  intros Hne. cbn zeta. destruct (run_consistent calls) as [(Hkeys & Hsame & _) _].
  pose proof (master_run_separate calls) as Hsep.
  destruct (master_post_process_ref now g batch (run calls))
    as (r & Hobj & Hnested & Hts & Hr).
  pose proof (staged_other _ _ g g' r
                (dict_update (default ∅ (staged (run calls) g)) (dict batch))
                Hsep Hr Hne) as Hstaged.
  unfold staged, entry. rewrite Hobj, Hnested, Hts.
  split; [exact Hstaged |]. split; [| apply Hsep].
  rewrite lookup_insert_ne by done.
  destruct (_gv_ts_ind_val_dict (run calls) !! g') as [[ts x] |] eqn:Hg'; [| done].
  rewrite (Hsame g' ts x Hg'). f_equal. f_equal.
  by rewrite lookup_insert_ne in Hstaged.
Qed.

Lemma master_observation_leaves_others_witness :
  Group40Var1 <> Group30Var1 /\
  staged (_post_process 3 Group40Var1 [(1, PyInt 7)]
            (run [call__post_process 1 Group30Var1 [(1, PyFloat 10%float)]]))
         Group30Var1 = Some (dict [(1, PyFloat 10%float)]).
Proof.
  assert (Hne : Group40Var1 <> Group30Var1) by discriminate.
  split; [exact Hne |].
  rewrite (proj1 (master_observation_leaves_others
                    [call__post_process 1 Group30Var1 [(1, PyFloat 10%float)]]
                    3 Group40Var1 Group30Var1 [(1, PyInt 7)] Hne)).
  reflexivity.
Defined.

End MasterSweepMore.

(** ** [outstation_new]: routing, logging, several outstations *)
Section OutstationMore.
Import outstation_new.
Context {Engine : Type}.
Variable engine_configure : ref -> Engine -> result unit * Engine.
Variable engine_open : ref -> string -> Z -> Engine -> result unit * Engine.
Variable engine_finish : ref -> Engine -> result unit * Engine.
Variable engine_update : ref -> obj -> Z -> Engine -> result unit * Engine.
Variable engine_shutdown : ref -> Engine -> result unit * Engine.
Implicit Types (w : World Engine) (handler : MyOutstationCommandHandler).

(** Processing a request on an instance, for a command that translates:
    the one update of the engine. *)
Lemma processing_translated (app : ref) (request : ControlRequest) w status :
  station_utils.master_to_outstation_command_parser (request_command request)
    = Ok status ->
  processing engine_update (Some app) request w =
    ((engine_update app status
        match request with
        | SelectRequest _ index | OperateRequest _ index _ => index
        end (engine w)).1,
     set_engine Engine
       (engine_update app status
          match request with
          | SelectRequest _ index | OperateRequest _ index _ => index
          end (engine w)).2 w).
Proof.
  intros Hparse.
  destruct request as [command index | command index op_type]; cbn in *;
    unfold process_point_value, bind, lift; by rewrite Hparse.
Qed.

(** X18. A request reaches the instance registered under the handler's
    id, once, with the translated command and the request's index: the
    handler returns [SUCCESS] when the engine accepts the update, and
    otherwise raises the engine's exception, after appending its error
    record to the log; the engine's state is the one the update left.
    The kind of request ([Select] or [Operate]) and the operate type play
    no part. *)
Theorem request_reaches_registered_instance handler (request : ControlRequest) w
    (app : ref) (status : obj) :
  outstation_application_pool w !! outstation_id handler = Some app ->
  station_utils.master_to_outstation_command_parser (request_command request)
    = Ok status ->
  let index := match request with
               | SelectRequest _ index | OperateRequest _ index _ => index
               end in
  handle engine_update handler request w =
    match engine_update app status index (engine w) with
    | (Ok _, engine') =>
        (Ok SUCCESS,
         {| outstation_application_pool := outstation_application_pool w;
            logged := logged w;
            engine := engine' |})
    | (Raise e, engine') =>
        (Raise e,
         {| outstation_application_pool := outstation_application_pool w;
            logged := logged w ++ [ERROR e];
            engine := engine' |})
    end.
Proof.
  intros Happ Hparse. cbn zeta. rewrite handle_spec, Happ.
  rewrite (processing_translated _ _ _ _ Hparse).
  by destruct (engine_update _ _ _ _) as [[[] | e] engine'].
Qed.

(** X19. A handler bound to an id under which nothing is registered
    fails every request, translatable or not: it raises the
    [AttributeError] of the missing instance, after appending its error
    record to the log, and the engine is not asked anything. *)
Theorem unregistered_outstation_fails handler (request : ControlRequest) w :
  outstation_application_pool w !! outstation_id handler = None ->
  handle engine_update handler request w =
    (Raise (AttributeError_None "process_point_value"),
     {| outstation_application_pool := outstation_application_pool w;
        logged := logged w ++ [ERROR (AttributeError_None "process_point_value")];
        engine := engine w |}).
Proof. intros Happ. rewrite handle_spec, Happ. by destruct request. Qed.

(** X20. What a request does to the log and the pool: the pool is left
    as it was, a request that returns logs nothing, and a request that
    raises appends exactly one record, the exception it raises. *)
Theorem handler_logs_exactly_the_failure handler (request : ControlRequest) w :
  let outcome := handle engine_update handler request w in
  outstation_application_pool outcome.2 = outstation_application_pool w /\
  match outcome.1 with
  | Ok _ => logged outcome.2 = logged w
  | Raise e => logged outcome.2 = logged w ++ [ERROR e]
  end.
Proof.
  cbn zeta. rewrite handle_spec.
  destruct (outstation_application_pool w !! outstation_id handler) as [app |].
  - destruct (station_utils.master_to_outstation_command_parser
                (request_command request)) as [status | e] eqn:Hparse.
    + rewrite (processing_translated _ _ _ _ Hparse).
      by destruct (engine_update _ _ _ _) as [[[] | e] engine'].
    + by rewrite (processing_untranslatable _ _ _ _ _ Hparse).
  - by destruct request.
Qed.

Lemma outstation_id_injective (ip : string) (port1 port2 : Z) :
  ip +:+ "-" +:+ str port1 = ip +:+ "-" +:+ str port2 -> port1 = port2.
Proof.
  intros Hid. apply (inj (String.app ip)), (inj (String.app "-")) in Hid.
  by apply (inj pretty).
Qed.

(** When [__init__] returns, the port is one the channel takes, the
    handler is bound to the id made of the address and the port, and the
    pool holds the new instance under that id, all else as before. *)
Lemma init_returns (self : ref) (ip : string) (port : Z) w handler w1 :
  __init__ engine_configure engine_open engine_finish self ip port w = (Ok handler, w1) ->
  0 <= port <= 65535 /\
  handler = {| outstation_id := ip +:+ "-" +:+ str port |} /\
  outstation_application_pool w1 =
    <[ip +:+ "-" +:+ str port := self]> (outstation_application_pool w) /\
  logged w1 = logged w.
Proof.
  rewrite init_spec.
  destruct (engine_configure self (engine w)) as [[[] | e] configured]; [| done].
  case_bool_decide as Hport; [| done].
  destruct (engine_open self ip port configured) as [[[] | e] opened]; [| done].
  cbn zeta. destruct (engine_finish self opened).1; [| done].
  by intros [= <- <-].
Qed.

(** X21. Two outstations created on the same address, one after the
    other, each creation returning: with different ports each is found
    under its own id, and with the same port the one created last
    replaces the first.  A creation with a port outside 0 to 65535 never
    returns: it raises, the [TypeError] of the bindings unless the
    configuration before it has raised, and registers nothing. *)
Theorem outstations_by_port (self1 self2 : ref) (ip : string) (port1 port2 : Z) w :
  (forall handler1 w1 handler2 w2,
     __init__ engine_configure engine_open engine_finish self1 ip port1 w
       = (Ok handler1, w1) ->
     __init__ engine_configure engine_open engine_finish self2 ip port2 w1
       = (Ok handler2, w2) ->
     w2 = run engine_configure engine_open engine_finish engine_update engine_shutdown
            [call___init__ self1 ip port1; call___init__ self2 ip port2] w /\
     get_outstation_app (ip +:+ "-" +:+ str port2) w2 = (Ok (Some self2), w2) /\
     get_outstation_app (ip +:+ "-" +:+ str port1) w2 =
       (Ok (Some (if decide (port1 = port2) then self2 else self1)), w2)) /\
  (~ 0 <= port1 <= 65535 ->
   exists e w1,
     __init__ engine_configure engine_open engine_finish self1 ip port1 w
       = (Raise e, w1) /\
     (e = TypeError_arguments \/ (engine_configure self1 (engine w)).1 = Raise e) /\
     outstation_application_pool w1 = outstation_application_pool w /\
     logged w1 = logged w).
Proof.
  split.
  - intros handler1 w1 handler2 w2 Hinit1 Hinit2.
    split.
    { unfold run. cbn [fold_left exec]. rewrite Hinit1. cbn [snd].
      by rewrite Hinit2. }
    apply init_returns in Hinit1 as (_ & _ & Hpool1 & _).
    apply init_returns in Hinit2 as (_ & _ & Hpool2 & _).
    unfold get_outstation_app, bind, get, ret. rewrite Hpool2, Hpool1.
    rewrite lookup_insert_eq. split; [done |].
    destruct (decide (port1 = port2)) as [-> | Hne].
    + by rewrite lookup_insert_eq.
    + rewrite lookup_insert_ne, lookup_insert_eq; [done |].
      intros Hid. by apply outstation_id_injective in Hid.
  - intros Hport. rewrite init_spec.
    destruct (engine_configure self1 (engine w)) as [[[] | e] configured].
    + rewrite bool_decide_eq_false_2 by done.
      exists TypeError_arguments, (set_engine Engine configured w). auto.
    + exists e, (set_engine Engine configured w). auto.
Qed.

(** X22. When [__init__] returns, the handler it has made is bound to
    the id under which it has registered the new instance, so a request
    through that handler reaches that instance; and the port is within 0
    to 65535. *)
Theorem new_outstation_gets_its_requests (self : ref) (ip : string) (port : Z)
    (request : ControlRequest) w (status : obj) handler w1 :
  station_utils.master_to_outstation_command_parser (request_command request)
    = Ok status ->
  __init__ engine_configure engine_open engine_finish self ip port w = (Ok handler, w1) ->
  0 <= port <= 65535 /\
  outstation_id handler = ip +:+ "-" +:+ str port /\
  outstation_application_pool w1 !! outstation_id handler = Some self /\
  handle engine_update handler request w1 =
    match engine_update self status
            match request with
            | SelectRequest _ index | OperateRequest _ index _ => index
            end (engine w1) with
    | (Ok _, engine') =>
        (Ok SUCCESS,
         {| outstation_application_pool := outstation_application_pool w1;
            logged := logged w1;
            engine := engine' |})
    | (Raise e, engine') =>
        (Raise e,
         {| outstation_application_pool := outstation_application_pool w1;
            logged := logged w1 ++ [ERROR e];
            engine := engine' |})
    end.
Proof.
  intros Hparse Hinit. apply init_returns in Hinit as (Hport & -> & Hpool & _).
  split; [done |]. split; [done |].
  assert (Happ : outstation_application_pool w1
                   !! outstation_id {| outstation_id := ip +:+ "-" +:+ str port |}
                 = Some self)
    by (rewrite Hpool; apply lookup_insert_eq).
  split; [exact Happ |].
  rewrite handle_spec, Happ, (processing_translated _ _ _ _ Hparse).
  by destruct (engine_update _ _ _ _) as [[[] | e] engine'].
Qed.

End OutstationMore.

Section OutstationMoreExamples.
Import outstation_new.

Let Recorded : Type := list (ref * obj * Z).
Let ready_configure : ref -> Recorded -> result unit * Recorded :=
  fun _ db => (Ok tt, db).
Let ready_open : ref -> string -> Z -> Recorded -> result unit * Recorded :=
  fun _ _ _ db => (Ok tt, db).
Let ready_finish : ref -> Recorded -> result unit * Recorded :=
  fun _ db => (Ok tt, db).
Let ready_shutdown : ref -> Recorded -> result unit * Recorded :=
  fun _ db => (Ok tt, db).
Let recording : ref -> obj -> Z -> Recorded -> result unit * Recorded :=
  fun self measurement index db => (Ok tt, db ++ [(self, measurement, index)]).

Lemma request_reaches_registered_instance_witness :
  let w := {| outstation_application_pool :=
                <["127.0.0.1-20001" := 2%positive]> {["127.0.0.1-20000" := 1%positive]};
              logged := [];
              engine := [] |} in
  handle recording {| outstation_id := "127.0.0.1-20001" |}
    (OperateRequest (AnalogOutputInt32 7) 4 DirectOperate) w =
  (Ok SUCCESS,
   {| outstation_application_pool := outstation_application_pool w;
      logged := [];
      engine := [(2%positive, AnalogOutputStatus 7%float, 4)] |}).
Proof.
  intros w.
  exact (request_reaches_registered_instance recording
           {| outstation_id := "127.0.0.1-20001" |}
           (OperateRequest (AnalogOutputInt32 7) 4 DirectOperate) w
           2%positive (AnalogOutputStatus 7%float)
           ltac:(vm_compute; reflexivity) ltac:(vm_compute; reflexivity)).
Defined.

Lemma unregistered_outstation_fails_witness :
  handle recording {| outstation_id := "127.0.0.1-20000" |}
    (SelectRequest (ControlRelayOutputBlock 3) 0) (start []) =
  (Raise (AttributeError_None "process_point_value"),
   {| outstation_application_pool := ∅;
      logged := [ERROR (AttributeError_None "process_point_value")];
      engine := [] |}).
Proof.
  exact (unregistered_outstation_fails recording
           {| outstation_id := "127.0.0.1-20000" |}
           (SelectRequest (ControlRelayOutputBlock 3) 0) (start []) eq_refl).
Defined.

Lemma outstations_by_port_witness :
  let w := start ([] : Recorded) in
  let w2 := run ready_configure ready_open ready_finish recording ready_shutdown
              [call___init__ 1%positive "127.0.0.1" 20000;
               call___init__ 2%positive "127.0.0.1" 20001] w in
  get_outstation_app "127.0.0.1-20001" w2 = (Ok (Some 2%positive), w2) /\
  get_outstation_app "127.0.0.1-20000" w2 = (Ok (Some 1%positive), w2) /\
  (~ 0 <= 70000 <= 65535) /\
  exists e w1,
    __init__ ready_configure ready_open ready_finish 1%positive "127.0.0.1" 70000 w
      = (Raise e, w1) /\
    (e = TypeError_arguments \/ (ready_configure 1%positive (engine w)).1 = Raise e) /\
    outstation_application_pool w1 = outstation_application_pool w /\
    logged w1 = logged w.
Proof.
  intros w w2.
  destruct (proj1 (outstations_by_port ready_configure ready_open ready_finish
                     recording ready_shutdown
                     1%positive 2%positive "127.0.0.1" 20000 20001 w)
              {| outstation_id := "127.0.0.1-20000" |}
              (run ready_configure ready_open ready_finish recording ready_shutdown
                 [call___init__ 1%positive "127.0.0.1" 20000] w)
              {| outstation_id := "127.0.0.1-20001" |}
              w2
              ltac:(vm_compute; reflexivity) ltac:(vm_compute; reflexivity))
    as (_ & Hsecond & Hfirst).
  split; [exact Hsecond |]. split; [exact Hfirst |].
  assert (Hport : ~ 0 <= 70000 <= 65535) by lia.
  split; [exact Hport |].
  exact (proj2 (outstations_by_port ready_configure ready_open ready_finish
                  recording ready_shutdown
                  1%positive 2%positive "127.0.0.1" 70000 20001 w) Hport).
Defined.

Lemma new_outstation_gets_its_requests_witness :
  let handler := {| outstation_id := "127.0.0.1-20000" |} in
  let w1 := {| outstation_application_pool := {["127.0.0.1-20000" := 1%positive]};
               logged := [];
               engine := ([] : Recorded) |} in
  __init__ ready_configure ready_open ready_finish 1%positive "127.0.0.1" 20000
    (start []) = (Ok handler, w1) /\
  handle recording handler (SelectRequest (ControlRelayOutputBlock 4) 0) w1 =
    (Ok SUCCESS,
     {| outstation_application_pool := outstation_application_pool w1;
        logged := [];
        engine := [(1%positive, BinaryOutputStatus false, 0)] |}).
Proof.
  intros handler w1.
  assert (Hinit : __init__ ready_configure ready_open ready_finish 1%positive
                    "127.0.0.1" 20000 (start []) = (Ok handler, w1))
    by (vm_compute; reflexivity).
  split; [exact Hinit |].
  exact (proj2 (proj2 (proj2
           (new_outstation_gets_its_requests ready_configure ready_open ready_finish
              recording 1%positive "127.0.0.1" 20000
              (SelectRequest (ControlRelayOutputBlock 4) 0) (start [])
              (BinaryOutputStatus false) handler w1 eq_refl Hinit)))).
Defined.

End OutstationMoreExamples.

(** ** The location that [MyLogger.Log] prints *)
Section LogLocation.

Lemma free_of_empty (c : Ascii.ascii) : free_of c EmptyString.
Proof. intros [| a before] after; discriminate. Qed.

Lemma free_of_cons (c a : Ascii.ascii) (s : string) :
  a <> c -> free_of c s -> free_of c (String a s).
Proof.
  intros Hne Hfree [| a' before] after; cbn.
  - intros [= -> _]. done.
  - intros [= _ Hs]. by eapply Hfree.
Qed.

(** [rsplit] returns the pieces of the string: the string is the pieces
    before the last, each with its separator, and then the last piece,
    which holds no separator. *)
Lemma rsplit_spec (sep : Ascii.ascii) (s : string) :
  exists pieces piece,
    rsplit sep s = pieces ++ [piece] /\
    s = pieces_prefix sep pieces +:+ piece /\
    free_of sep piece.
Proof.
  induction s as [| c s (pieces & piece & Hsplit & Hs & Hfree)].
  - exists [], EmptyString. repeat split. apply free_of_empty.
  - cbn [rsplit]. destruct (decide (c = sep)) as [-> | Hne].
    + exists (EmptyString :: pieces), piece. split; [by rewrite Hsplit |].
      split; [| done].
      change (String sep s = String sep (pieces_prefix sep pieces +:+ piece)).
      by f_equal.
    + rewrite Hsplit. destruct pieces as [| first pieces].
      * exists [], (String c piece). split; [done |]. split.
        -- change (String c s = String c piece). by f_equal.
        -- by apply free_of_cons.
      * exists (String c first :: pieces), piece. split; [done |]. split; [| done].
        change (String c s =
                String c (pieces_prefix sep (first :: pieces) +:+ piece)).
        by f_equal.
Qed.

Lemma string_app_assoc (s1 s2 s3 : string) :
  (s1 +:+ s2) +:+ s3 = s1 +:+ (s2 +:+ s3).
Proof.
  induction s1 as [| c s1 IH]; [done |].
  change (String c ((s1 +:+ s2) +:+ s3) = String c (s1 +:+ (s2 +:+ s3))).
  by f_equal.
Qed.

Lemma pieces_prefix_end (sep : Ascii.ascii) (pieces : list string) :
  pieces_prefix sep pieces = EmptyString \/
  exists front, pieces_prefix sep pieces = front +:+ String sep EmptyString.
Proof.
  induction pieces as [| piece pieces IH]; [by left |]. right.
  change (pieces_prefix sep (piece :: pieces))
    with (piece +:+ String sep (pieces_prefix sep pieces)).
  destruct IH as [-> | [front ->]].
  - by exists piece.
  - exists (piece +:+ String sep front). symmetry.
    apply (string_app_assoc piece (String sep front) (String sep EmptyString)).
Qed.

(** X23. The location [MyLogger.Log] prints is the part of
    [entry.location] after its last [/]: taking it never fails, it holds
    no [/], and the location is a prefix followed by it, where the prefix
    is empty or ends in [/].  So a location without [/] is printed
    whole. *)
Theorem log_location_is_last_segment (location : string) :
  exists segment prefix,
    Log_location location = Some segment /\
    free_of slash segment /\
    location = prefix +:+ segment /\
    (prefix = EmptyString \/ exists front, prefix = front +:+ String slash EmptyString) /\
    (free_of slash location -> segment = location).
Proof.
  destruct (rsplit_spec slash location) as (pieces & piece & Hsplit & Hs & Hfree).
  exists piece, (pieces_prefix slash pieces).
  assert (Hlast : Log_location location = Some piece).
  { unfold Log_location. case_bool_decide as Hempty.
    - rewrite Hempty in Hsplit. cbn in Hsplit.
      destruct pieces as [| ? [| ? ?]]; cbn in Hsplit; congruence.
    - by rewrite Hsplit, last_snoc. }
  split; [exact Hlast |]. split; [exact Hfree |]. split; [exact Hs |].
  split; [apply pieces_prefix_end |].
  intros Hnone. destruct (pieces_prefix_end slash pieces) as [Hp | [front Hp]].
  - by rewrite Hs, Hp.
  - exfalso. apply (Hnone front piece). rewrite Hs, Hp.
    by rewrite string_app_assoc.
Qed.

Lemma log_location_is_last_segment_witness :
  Log_location "cpp/libs/src/opendnp3/master/MasterContext.cpp" =
    Some "MasterContext.cpp" /\
  Log_location "" = Some "" /\
  Log_location "a/b/" = Some "" /\
  free_of slash "MasterContext.cpp" /\
  Log_location "MasterContext.cpp" = Some "MasterContext.cpp".
Proof.
  repeat (split; [reflexivity |]).
  destruct (log_location_is_last_segment "MasterContext.cpp")
    as (segment & prefix & Hlast & Hfree & _ & _ & _).
  injection Hlast as <-. split; [exact Hfree | reflexivity].
Defined.

End LogLocation.

(** ** From a [GroupVariationID] to a [GroupVariation] *)
Section GroupVariationClasses.

Lemma pair_test_false (g v a b : Z) :
  (g, v) <> (a, b) -> bool_decide (g = a) && bool_decide (v = b) = false.
Proof.
  intros Hne. destruct (decide (g = a)) as [-> | Hg].
  - rewrite (bool_decide_eq_false_2 (v = b)); [apply andb_false_r | congruence].
  - by rewrite (bool_decide_eq_false_2 (g = a)).
Qed.

(** X24. [master_utils.parsing_gvid_to_gvcls] knows ten pairs and no
    others: for a pair outside its list it ends in [UnboundLocalError].
    For a pair of the list it returns the member of that group and
    variation, except for group 4, variation 1, where it returns
    [Group40Var1]; group 40, variation 1 itself is not in the list. *)
Theorem hard_coded_group_variations (gvid : GroupVariationID) :
  let known := [(30, 6); (30, 1); (1, 2); (40, 4); (4, 1);
                (10, 2); (32, 4); (2, 2); (42, 8); (11, 2)] in
  let asked := (id_group gvid, id_variation gvid) in
  (asked ∈ known <->
   exists member, master_utils_rest.parsing_gvid_to_gvcls gvid = inr member) /\
  (asked ∉ known <->
   master_utils_rest.parsing_gvid_to_gvcls gvid = inl master_utils_rest.gv_cls_unbound) /\
  (forall member,
     master_utils_rest.parsing_gvid_to_gvcls gvid = inr member ->
     (Z.of_N (group member), Z.of_N (variation member)) = asked \/
     (asked = (4, 1) /\ member = Group40Var1)) /\
  master_utils_rest.parsing_gvid_to_gvcls {| id_group := 40; id_variation := 1 |} =
    inl master_utils_rest.gv_cls_unbound.
Proof.
  destruct gvid as [g v]. cbn zeta. cbn [id_group id_variation].
  set (known := [(30, 6); (30, 1); (1, 2); (40, 4); (4, 1);
                 (10, 2); (32, 4); (2, 2); (42, 8); (11, 2)]).
  assert (Hin : (g, v) ∈ known ->
            exists member,
              master_utils_rest.parsing_gvid_to_gvcls
                {| id_group := g; id_variation := v |} = inr member /\
              ((Z.of_N (group member), Z.of_N (variation member)) = (g, v) \/
               ((g, v) = (4, 1) /\ member = Group40Var1))).
  { unfold known. rewrite !elem_of_cons, elem_of_nil. intros Hcases.
    repeat (destruct Hcases as [Hcases | Hcases];
            [injection Hcases as -> ->; eexists; split; [reflexivity |];
             first [left; reflexivity | right; split; reflexivity] |]).
    done. }
  assert (Hout : (g, v) ∉ known ->
            master_utils_rest.parsing_gvid_to_gvcls
              {| id_group := g; id_variation := v |}
            = inl master_utils_rest.gv_cls_unbound).
  { unfold known. rewrite !not_elem_of_cons.
    intros (H1 & H2 & H3 & H4 & H5 & H6 & H7 & H8 & H9 & H10 & _).
    unfold master_utils_rest.parsing_gvid_to_gvcls. cbn [id_group id_variation].
    by rewrite !pair_test_false. }
  destruct (decide ((g, v) ∈ known)) as [Hyes | Hno].
  - destruct (Hin Hyes) as (member & Hmember & Hsame). rewrite Hmember.
    split; [split; eauto |]. split; [split; [done | discriminate] |].
    split; [| reflexivity]. by intros member' [= <-].
  - rewrite (Hout Hno). split; [split; [done | intros [? [=]]] |].
    split; [done |]. split; [| reflexivity]. intros member [=].
Qed.

Lemma hard_coded_group_variations_witness :
  master_utils_rest.parsing_gvid_to_gvcls {| id_group := 30; id_variation := 6 |} =
    inr Group30Var6 /\
  master_utils_rest.parsing_gvid_to_gvcls {| id_group := 4; id_variation := 1 |} =
    inr Group40Var1 /\
  master_utils_rest.parsing_gvid_to_gvcls {| id_group := 30; id_variation := 2 |} =
    inl master_utils_rest.gv_cls_unbound.
Proof.
  split; [reflexivity |]. split; [reflexivity |].
  apply (proj1 (proj2 (hard_coded_group_variations
                         {| id_group := 30; id_variation := 2 |}))).
  by_evaluation.
Defined.

End GroupVariationClasses.

Section GroupVariationLookup.
Import station_utils_rest.
Variable GroupVariation_getattr : string -> option GroupVariation.

(** X25. [station_utils.parsing_gvid_to_gvcls] has a default and a
    warning that are never used: it returns the member named
    [Group<group>Var<variation>] when the enumeration has one, and
    otherwise the [AttributeError] of the lookup leaves the function,
    because the [except] clause catches [ValueError] only.  It never
    returns the [GroupVariationID(30, 6)] it starts with and never logs. *)
Theorem gvcls_default_is_never_used (gvid : GroupVariationID) :
  let name := "Group" +:+ outstation_new.str (id_group gvid) +:+ "Var"
                +:+ outstation_new.str (id_variation gvid) in
  let outcome := parsing_gvid_to_gvcls GroupVariation_getattr gvid in
  outcome.2 = [] /\
  (forall member, GroupVariation_getattr name = Some member ->
                  outcome.1 = inr (a_member member)) /\
  (GroupVariation_getattr name = None -> outcome.1 = inl (AttributeError name)) /\
  (forall default, outcome.1 <> inr (an_id default)).
Proof.
  cbn zeta. unfold parsing_gvid_to_gvcls.
  destruct (GroupVariation_getattr _) as [member |]; cbn.
  - split; [done |]. split; [by intros ? [= <-] |]. split; [done |]. intros ? [=].
  - split; [done |]. split; [done |]. split; [done |]. intros ? [=].
Qed.

End GroupVariationLookup.

Lemma gvcls_default_is_never_used_witness :
  let getattr := fun name : string =>
    if decide (name = "Group30Var1") then Some Group30Var1 else None in
  (station_utils_rest.parsing_gvid_to_gvcls getattr
     {| id_group := 30; id_variation := 1 |}).1 =
    inr (station_utils_rest.a_member Group30Var1) /\
  (station_utils_rest.parsing_gvid_to_gvcls getattr
     {| id_group := 99; id_variation := 1 |}).1 =
    inl (station_utils_rest.AttributeError "Group99Var1").
Proof.
  intros getattr. split.
  - exact (proj1 (proj2 (gvcls_default_is_never_used getattr
                           {| id_group := 30; id_variation := 1 |}))
             Group30Var1 eq_refl).
  - exact (proj1 (proj2 (proj2 (gvcls_default_is_never_used getattr
                                  {| id_group := 99; id_variation := 1 |})))
             eq_refl).
Defined.
